(** * knoxite: snapshot persistence, the backup pipeline and the Amazon S3 backend

    A shallow embedding of [lib/snapshot.go] and
    [storage/amazons3/storage_amazons3.go].

    Go values are modelled as follows: [string] is [string]; [[]byte] is
    [list Byte.byte]; [uint], [uint16] and [uint64] are [N] (sums on
    [uint64] wrap modulo 2^64); a returned pair [(v, err)] is a pair whose
    second component is [option error], [None] standing for [nil];
    [map[string]T] is [gmap string T]; a channel is the list of the
    operations performed on it.  State that Go reaches through a pointer
    (the object store behind a backend, the snapshot under construction) is
    threaded explicitly. *)

From Stdlib Require Import Ascii DecimalString.
From Stdlib Require DecimalN DecimalPos.
From stdpp Require Import gmap strings list fin_maps.

Open Scope string_scope.

Abbreviation bytes := (list Byte.byte).

(** ** Errors *)

(** The error values the two files name or receive.  The knoxite sentinels
    ([ErrRepositoryExists] and the like) are declared in the library's
    error table; [ErrNotExist] stands for an [*os.PathError] that
    [os.IsNotExist] accepts; [ErrRel] is the error of [filepath.Rel];
    [ErrResponse] is an error response of the object store, carrying its
    code. *)
Inductive error : Type :=
  | ErrRepositoryExists
  | ErrInvalidRepositoryURL
  | ErrAvailableSpaceUnknown
  | ErrInvalidUsername
  | ErrInvalidPassword
  | ErrDeleteChunkFailed
  | ErrWrongPassword
  | ErrNotExist (path : string)
  | ErrRel (basepath targpath : string)
  | ErrResponse (code : string)
  | ErrOther (msg : string).

#[global] Instance error_eq_dec : EqDecision error.
Proof. solve_decision. Defined.

(** [os.IsNotExist]. *)
Definition IsNotExist (err : error) : bool :=
  match err with
  | ErrNotExist _ => true
  | _ => false
  end.

(** [err != nil]. *)
Definition isErr (err : option error) : bool :=
  match err with
  | Some _ => true
  | None => false
  end.

(** ** Machine integers *)

Definition uint64_modulus : N := 2 ^ 64.

(** Addition on [uint64]. *)
Definition add64 (a b : N) : N := ((a + b) mod uint64_modulus)%N.

(** The conversion [uint64(i)] of a signed integer. *)
Definition to_uint64 (i : Z) : N := Z.to_N (i mod Z.of_N uint64_modulus).

(** ** The Go standard library, as far as the two files use it *)

Module strings.

(** [strings.HasPrefix(s, prefix)]. *)
Definition HasPrefix (s prefix : string) : bool := String.prefix prefix s.

(** [strings.Split(s, sep)] for a separator of one byte, which is all the
    sources pass.  As in Go the result is never empty: splitting the
    empty string gives one empty field. *)
Fixpoint Split (s : string) (sep : ascii) : list string :=
  match s with
  | EmptyString => [EmptyString]
  | String a s' =>
      if Ascii.eqb a sep then EmptyString :: Split s' sep
      else match Split s' sep with
           | field :: fields => String a field :: fields
           | [] => [String a EmptyString]
           end
  end.

(** [strings.Join(elems, sep)]. *)
Definition Join (elems : list string) (sep : string) : string :=
  String.concat sep elems.

(** Occurrence of a byte in a string. *)
Fixpoint Contains (s : string) (c : ascii) : bool :=
  match s with
  | EmptyString => false
  | String a s' => Ascii.eqb a c || Contains s' c
  end.

(** [strings.Count(s, sep)] for a separator of one byte. *)
Fixpoint Count (s : string) (sep : ascii) : nat :=
  match s with
  | EmptyString => 0
  | String a s' => (if Ascii.eqb a sep then 1 else 0) + Count s' sep
  end.

End strings.

Module strconv.

(** [strconv.FormatUint(n, 10)]. *)
Definition FormatUint (n : N) : string := NilZero.string_of_uint (N.to_uint n).

End strconv.

Module filepath.

Definition Separator : ascii := "/"%char.

(** [len(p) > 0 && p[0] == Separator]. *)
Definition slashed (p : string) : bool :=
  match p with
  | String a _ => Ascii.eqb a Separator
  | EmptyString => false
  end.

(** One element of the path being cleaned; [out] is the stack of the
    elements kept so far, innermost first.  Empty and [.] elements are
    dropped; [..] removes the element before it, unless there is none to
    remove, in which case it is kept on a relative path and dropped on a
    rooted one. *)
Definition cleanStep (rooted : bool) (out : list string) (elem : string) : list string :=
  if String.eqb elem "" || String.eqb elem "." then out
  else if String.eqb elem ".." then
    match out with
    | last :: out' =>
        if String.eqb last ".." then (if rooted then out else ".." :: out)
        else out'
    | [] => if rooted then out else [".."]
    end
  else elem :: out.

(** [filepath.Clean] on a Unix system (no volume names). *)
Definition Clean (path : string) : string :=
  if String.eqb path "" then "."
  else
    let rooted := slashed path in
    let out := fold_left (cleanStep rooted) (strings.Split path Separator) [] in
    let r := (if rooted then "/" else "") +:+ strings.Join (rev out) "/" in
    if String.eqb r "" then "." else r.

(** Nothing is left of a path given by its remaining elements. *)
Definition restEmpty (elems : list string) : bool :=
  match elems with
  | [] => true
  | [e] => String.eqb e ""
  | _ => false
  end.

(** The loop of [filepath.Rel] that walks [base] and [targ] element by
    element up to the first difference.  The result is what remains of
    [base] from [b0], the element [base[b0:bi]], and what remains of
    [targ] from [t0]. *)
Fixpoint relLoop (bs ts : list string) : list string * string * list string :=
  match bs, ts with
  | b :: bs', t :: ts' =>
      if restEmpty bs || restEmpty ts then (bs, "", ts)
      else if String.eqb t b then relLoop bs' ts'
      else (bs, b, ts)
  | _, _ => (bs, "", ts)
  end.

(** [filepath.Rel] on a Unix system. *)
Definition Rel (basepath targpath : string) : string * option error :=
  let base := Clean basepath in
  let targ := Clean targpath in
  if String.eqb targ base then (".", None)
  else
    let base := if String.eqb base "." then "" else base in
    if negb (Bool.eqb (slashed base) (slashed targ)) then
      ("", Some (ErrRel basepath targpath))
    else
      let '(bs, b, ts) :=
        relLoop (strings.Split base Separator) (strings.Split targ Separator) in
      if String.eqb b ".." then ("", Some (ErrRel basepath targpath))
      else if negb (restEmpty bs) then
        let seps := Nat.pred (length bs) in
        let up := ".." +:+ String.concat "" (repeat "/.." seps) in
        (if restEmpty ts then up else up +:+ "/" +:+ strings.Join ts "/", None)
      else (strings.Join ts "/", None).

(** A name of a directory entry: not empty, not [.] or [..], and
    without a separator. *)
Definition properElem (e : string) : bool :=
  negb (String.eqb e "") && negb (String.eqb e ".") && negb (String.eqb e "..")
  && negb (strings.Contains e Separator).

(** The absolute path with the given elements. *)
Definition absPath (elems : list string) : string :=
  "/" +:+ strings.Join elems "/".

End filepath.

(** ** Strings through [encoding/json]

    Go strings hold arbitrary bytes; JSON text is UTF-8.  [json.Marshal]
    writes a string byte by byte: where [utf8.DecodeRuneInString] finds no
    valid encoding at a byte (it returns [RuneError] with width 1), it
    writes U+FFFD for that byte and goes on with the next one, and
    [json.Unmarshal] reads it back as the three bytes that encode
    U+FFFD. *)
Module utf8.

(** The encoding of U+FFFD. *)
Definition RuneError : string :=
  String (ascii_of_N 239) (String (ascii_of_N 191) (String (ascii_of_N 189) "")).

Definition between (lo hi : N) (c : ascii) : bool :=
  (lo <=? N_of_ascii c)%N && (N_of_ascii c <=? hi)%N.

(** The width of the encoding at the head of [s], as
    [utf8.DecodeRuneInString] finds it; [None] where it returns
    [RuneError] with width 1 (or [s] is empty). *)
Definition runeLen (s : string) : option nat :=
  match s with
  | "" => None
  | String c0 rest =>
      let b0 := N_of_ascii c0 in
      if (b0 <? 128)%N then Some 1
      else if (b0 <? 194)%N then None
      else if (b0 <? 224)%N then
        match rest with
        | String c1 _ => if between 128 191 c1 then Some 2 else None
        | _ => None
        end
      else if (b0 <? 240)%N then
        match rest with
        | String c1 (String c2 _) =>
            let lo := if (b0 =? 224)%N then 160%N else 128%N in
            let hi := if (b0 =? 237)%N then 159%N else 191%N in
            if between lo hi c1 && between 128 191 c2 then Some 3 else None
        | _ => None
        end
      else if (b0 <? 245)%N then
        match rest with
        | String c1 (String c2 (String c3 _)) =>
            let lo := if (b0 =? 240)%N then 144%N else 128%N in
            let hi := if (b0 =? 244)%N then 143%N else 191%N in
            if between lo hi c1 && between 128 191 c2 && between 128 191 c3
            then Some 4 else None
        | _ => None
        end
      else None
  end.

(** [utf8.ValidString], with [skip] bytes of the current encoding still
    to pass. *)
Fixpoint validFrom (skip : nat) (s : string) : bool :=
  match s with
  | "" => true
  | String c rest =>
      match skip with
      | Datatypes.S k => validFrom k rest
      | O =>
          match runeLen (String c rest) with
          | Some n => validFrom (Nat.pred n) rest
          | None => false
          end
      end
  end.

Definition ValidString (s : string) : bool := validFrom 0 s.

End utf8.

Module json.

(** A string as it is after [json.Marshal] and [json.Unmarshal]: every
    byte at which no valid encoding starts has become U+FFFD. *)
Fixpoint coerceFrom (skip : nat) (s : string) : string :=
  match s with
  | "" => ""
  | String c rest =>
      match skip with
      | Datatypes.S k => String c (coerceFrom k rest)
      | O =>
          match utf8.runeLen (String c rest) with
          | Some n => String c (coerceFrom (Nat.pred n) rest)
          | None => utf8.RuneError +:+ coerceFrom 0 rest
          end
      end
  end.

Definition coerce (s : string) : string := coerceFrom 0 s.

End json.

(** A Go call either returns or panics. *)
Inductive outcome (A : Type) : Type :=
  | Panic (msg : string)
  | Return (a : A).
Arguments Panic {A} msg.
Arguments Return {A} a.

(** ** The object store behind [minio.Client]

    The client library is not part of the repository.  Its service is
    modelled as an in-memory store, a map from bucket names to buckets,
    each a map from object names to contents; every call answers from that
    store alone (no transport failure). *)
Module minio.

Record Client : Type := {
  endpoint : string;
  accessKeyID : string;
  secretAccessKey : string;
  secure : bool
}.

Abbreviation Service := (gmap string (gmap string bytes)).

Definition NoSuchBucket : error := ErrResponse "NoSuchBucket".
Definition NoSuchKey : error := ErrResponse "NoSuchKey".
Definition BucketAlreadyOwnedByYou : error := ErrResponse "BucketAlreadyOwnedByYou".

Definition BucketExists (bucketName : string) (svc : Service) : bool * option error :=
  (bool_decide (is_Some (svc !! bucketName)), None).

Definition MakeBucket (bucketName location : string) (svc : Service)
  : option error * Service :=
  match svc !! bucketName with
  | Some _ => (Some BucketAlreadyOwnedByYou, svc)
  | None => (None, <[bucketName := ∅]> svc)
  end.

(** [StatObject] returns the object's size along with the error. *)
Definition StatObject (bucketName objectName : string) (svc : Service)
  : Z * option error :=
  match svc !! bucketName with
  | None => (0%Z, Some NoSuchBucket)
  | Some objects =>
      match objects !! objectName with
      | None => (0%Z, Some NoSuchKey)
      | Some data => (Z.of_nat (length data), None)
      end
  end.

(** [GetObject] followed by reading the object to its end. *)
Definition GetObject (bucketName objectName : string) (svc : Service)
  : bytes * option error :=
  match svc !! bucketName with
  | None => ([], Some NoSuchBucket)
  | Some objects =>
      match objects !! objectName with
      | None => ([], Some NoSuchKey)
      | Some data => (data, None)
      end
  end.

(** [PutObject] returns the number of bytes written, an [int64]. *)
Definition PutObject (bucketName objectName : string) (data : bytes) (svc : Service)
  : Z * option error * Service :=
  match svc !! bucketName with
  | None => (0%Z, Some NoSuchBucket, svc)
  | Some objects =>
      (Z.of_nat (length data), None,
       <[bucketName := <[objectName := data]> objects]> svc)
  end.

End minio.

(** ** [storage/amazons3/storage_amazons3.go] *)
Module url.

Record Userinfo : Type := {
  username : string;
  password : string;
  passwordSet : bool
}.

(** The methods accept a nil receiver. *)
Definition Username (u : option Userinfo) : string :=
  match u with
  | Some u => username u
  | None => ""
  end.

Definition Password (u : option Userinfo) : string * bool :=
  match u with
  | Some u => (password u, passwordSet u)
  | None => ("", false)
  end.

Record URL : Type := {
  Scheme : string;
  User : option Userinfo;
  Host : string;
  Path : string
}.

(** [url.URL{}]. *)
Definition zero : URL := {| Scheme := ""; User := None; Host := ""; Path := "" |}.

End url.

(** The methods of the backend reach the object store through
    [backend.client].  Below, each takes the store [svc] behind that
    client and returns the store it leaves: they describe a backend whose
    client is set, as [NewBackend] returns it.  On a backend without a
    client ([&StorageAmazonS3{}]) the same calls go through a nil
    [*minio.Client]; that case is outside these functions. *)
Module amazons3.

Record StorageAmazonS3 : Type := {
  url : url.URL;
  chunkBucket : string;
  snapshotBucket : string;
  repositoryBucket : string;
  region : string;
  client : option minio.Client
}.

(** [&StorageAmazonS3{}]. *)
Definition zero : StorageAmazonS3 :=
  {| url := url.zero; chunkBucket := ""; snapshotBucket := "";
     repositoryBucket := ""; region := ""; client := None |}.

(** [NewBackend]; [minio_New] is the constructor of the client library. *)
Definition NewBackend
    (minio_New : string -> string -> string -> bool -> option minio.Client * option error)
    (URL : url.URL) : outcome (StorageAmazonS3 * option error) :=
  let ssl := true in
  match
    (if String.eqb (url.Scheme URL) "s3" then Return false
     else if String.eqb (url.Scheme URL) "s3s" then Return ssl
     else Panic "Invalid s3 url scheme")
  with
  | Panic msg => Panic msg
  | Return ssl =>
      if String.eqb (url.Username (url.User URL)) "" then
        Return (zero, Some ErrInvalidUsername)
      else
        let '(pw, pwexist) := url.Password (url.User URL) in
        if negb pwexist then Return (zero, Some ErrInvalidPassword)
        else
          let regionAndBucketPrefix := strings.Split (url.Path URL) "/" in
          match regionAndBucketPrefix with
          | [_; region1; prefix2] =>
              let '(cl, err) :=
                minio_New (url.Host URL) (url.Username (url.User URL)) pw ssl in
              if isErr err then Return (zero, err)
              else
                Return ({| url := URL;
                           client := cl;
                           region := region1;
                           chunkBucket := prefix2 +:+ "-chunks";
                           snapshotBucket := prefix2 +:+ "-snapshots";
                           repositoryBucket := prefix2 +:+ "-repository" |}, None)
          | _ => Return (zero, Some ErrInvalidRepositoryURL)
          end
  end.

Definition Protocols (backend : StorageAmazonS3) : list string := ["s3"; "s3s"].

Definition AvailableSpace (backend : StorageAmazonS3) : N * option error :=
  (0%N, Some ErrAvailableSpaceUnknown).

(** The name of a shard's blob. *)
Definition fileName (shasum : string) (part totalParts : N) : string :=
  shasum +:+ "." +:+ strconv.FormatUint part +:+ "_" +:+ strconv.FormatUint totalParts.

Definition LoadChunk (backend : StorageAmazonS3) (shasum : string) (part totalParts : N)
    (svc : minio.Service) : bytes * option error :=
  minio.GetObject (chunkBucket backend) (fileName shasum part totalParts) svc.

Definition StoreChunk (backend : StorageAmazonS3) (shasum : string) (part totalParts : N)
    (data : bytes) (svc : minio.Service) : (N * option error) * minio.Service :=
  let fileName := fileName shasum part totalParts in
  let '(_, err) := minio.StatObject (chunkBucket backend) fileName svc in
  if negb (isErr err) then
    (* Chunk is already stored *)
    ((0%N, None), svc)
  else
    let '(i, err, svc) := minio.PutObject (chunkBucket backend) fileName data svc in
    ((to_uint64 i, err), svc).

Definition DeleteChunk (backend : StorageAmazonS3) (shasum : string) (part totalParts : N)
    (svc : minio.Service) : option error * minio.Service :=
  (Some ErrDeleteChunkFailed, svc).

Definition LoadSnapshot (backend : StorageAmazonS3) (id : string) (svc : minio.Service)
  : bytes * option error :=
  minio.GetObject (snapshotBucket backend) id svc.

Definition SaveSnapshot (backend : StorageAmazonS3) (id : string) (data : bytes)
    (svc : minio.Service) : option error * minio.Service :=
  let '(_, err, svc) := minio.PutObject (snapshotBucket backend) id data svc in
  (err, svc).

Definition InitRepository (backend : StorageAmazonS3) (svc : minio.Service)
  : option error * minio.Service :=
  let '(chunkBucketExist, err) := minio.BucketExists (chunkBucket backend) svc in
  if isErr err then (err, svc)
  else if chunkBucketExist then (Some ErrRepositoryExists, svc)
  else
    let '(err, svc) := minio.MakeBucket (chunkBucket backend) (region backend) svc in
    if isErr err then (err, svc)
    else
      let '(snapshotBucketExist, err) :=
        minio.BucketExists (snapshotBucket backend) svc in
      if isErr err then (err, svc)
      else if snapshotBucketExist then (Some ErrRepositoryExists, svc)
      else
        let '(err, svc) :=
          minio.MakeBucket (snapshotBucket backend) (region backend) svc in
        if isErr err then (err, svc)
        else
          let '(repositoryBucketExist, err) :=
            minio.BucketExists (repositoryBucket backend) svc in
          if isErr err then (err, svc)
          else if repositoryBucketExist then (Some ErrRepositoryExists, svc)
          else
            let '(err, svc) :=
              minio.MakeBucket (repositoryBucket backend) (region backend) svc in
            if isErr err then (err, svc)
            else (None, svc).

(** [Close]. *)
Definition Close (backend : StorageAmazonS3) : option error := None.

(** [Description]. *)
Definition Description (backend : StorageAmazonS3) : string := "Amazon S3 Storage".

(** The chunk index and the repository metadata are single blobs.  Their
    names, [knoxite.ChunkIndexFilename] and [knoxite.RepoFilename], are
    constants of the library declared outside the two source files; the
    four functions take them as a parameter. *)
Definition LoadChunkIndex (ChunkIndexFilename : string) (backend : StorageAmazonS3)
    (svc : minio.Service) : bytes * option error :=
  minio.GetObject (chunkBucket backend) ChunkIndexFilename svc.

Definition SaveChunkIndex (ChunkIndexFilename : string) (backend : StorageAmazonS3)
    (data : bytes) (svc : minio.Service) : option error * minio.Service :=
  let '(_, err, svc) :=
    minio.PutObject (chunkBucket backend) ChunkIndexFilename data svc in
  (err, svc).

Definition LoadRepository (RepoFilename : string) (backend : StorageAmazonS3)
    (svc : minio.Service) : bytes * option error :=
  minio.GetObject (repositoryBucket backend) RepoFilename svc.

Definition SaveRepository (RepoFilename : string) (backend : StorageAmazonS3)
    (data : bytes) (svc : minio.Service) : option error * minio.Service :=
  let '(_, err, svc) :=
    minio.PutObject (repositoryBucket backend) RepoFilename data svc in
  (err, svc).

End amazons3.

(** ** [lib/snapshot.go] *)
Module knoxite.

(** Modelled from the spec: the compression codec identifiers are
    declared outside the two source files; section 4.3 enumerates them as
    None(0), GZip(1), LZMA(2). *)
Definition CompressionNone : N := 0.
Definition CompressionGZip : N := 1.
Definition CompressionLZMA : N := 2.

(** The kinds of filesystem entry an archive records. *)
Inductive ArchiveType : Type := Directory | File | SymLink.

#[global] Instance ArchiveType_eq_dec : EqDecision ArchiveType.
Proof. solve_decision. Defined.

Module Stats.
Record t : Type := mk {
  Size : N;
  Transferred : N;
  StorageSize : N
}.
Definition zero : t := mk 0 0 0.
End Stats.

(** The attributes of a chunk that section 3 of the specification lists,
    and its shards. *)
Module Chunk.
Record t : Type := mk {
  Data : list bytes;
  DataParts : N;
  ParityParts : N;
  OriginalSize : Z;
  Size : Z;
  ShaSum : string;
  Num : N
}.
Definition zero : t := mk [] 0 0 0 0 "" 0.
Definition withData (c : t) (data : list bytes) : t :=
  mk data (DataParts c) (ParityParts c) (OriginalSize c) (Size c) (ShaSum c) (Num c).
End Chunk.

(** The fields of an archive that [snapshot.go] reads or writes (the
    owner, mode and time stamps of the entry play no part in it). *)
Module Archive.
Record t : Type := mk {
  Path : string;
  Type_ : ArchiveType;
  Size : N;
  StorageSize : N;
  Encrypted : N;
  Compressed : N;
  Chunks : list Chunk.t
}.
Definition withPath (a : t) (path : string) : t :=
  mk path (Type_ a) (Size a) (StorageSize a) (Encrypted a) (Compressed a) (Chunks a).
Definition withCodecs (a : t) (encrypted compressed : N) : t :=
  mk (Path a) (Type_ a) (Size a) (StorageSize a) encrypted compressed (Chunks a).
Definition withChunk (a : t) (chunk : Chunk.t) (n : N) : t :=
  mk (Path a) (Type_ a) (Size a) (add64 (StorageSize a) n) (Encrypted a)
     (Compressed a) (Chunks a ++ [chunk]).
End Archive.

Module ArchiveResult.
Record t : Type := mk {
  Archive : Archive.t;
  Error : option error
}.
End ArchiveResult.

Module ChunkResult.
Record t : Type := mk {
  Chunk : Chunk.t;
  Error : option error
}.
End ChunkResult.

Module Progress.
Record t : Type := mk {
  Path : string;
  CurrentItemStats : Stats.t;
  TotalStatistics : Stats.t;
  Error : option error
}.
Definition withTotalStatistics (p : t) (total : Stats.t) : t :=
  mk (Path p) (CurrentItemStats p) total (Error p).
Definition withCurrentItemStats (p : t) (current : Stats.t) : t :=
  mk (Path p) current (TotalStatistics p) (Error p).
End Progress.

(** Modelled from the spec: the constructors of progress events are
    declared outside the two source files.  Section 4.6 has a per-file
    start event, which names the entry and its logical size, and a
    terminal error event, which carries the error. *)
Definition newProgress (archive : Archive.t) : Progress.t :=
  Progress.mk (Archive.Path archive)
    (Stats.mk (Archive.Size archive) 0 (Archive.StorageSize archive))
    Stats.zero None.

Definition newProgressError (err : option error) : Progress.t :=
  Progress.mk "" Stats.zero Stats.zero err.

(** [Snapshot]; the embedded mutex is not modelled, [Date] is the instant
    in nanoseconds. *)
Module Snapshot.
Record t : Type := mk {
  ID : string;
  Date : Z;
  Description : string;
  Stats : Stats.t;
  Archives : gmap string Archive.t
}.
(** [Snapshot{}]. *)
Definition zero : t := mk "" 0 "" Stats.zero ∅.
Definition withStats (s : t) (stats : Stats.t) : t :=
  mk (ID s) (Date s) (Description s) stats (Archives s).
Definition withArchives (s : t) (archives : gmap string Archive.t) : t :=
  mk (ID s) (Date s) (Description s) (Stats s) archives.
End Snapshot.

(** The fields of [Repository] that [snapshot.go] reads; its backend is
    the [BackendManager] below. *)
Module Repository.
Record t : Type := mk {
  Version : N;
  Password : string
}.
End Repository.

(** The operations on a channel of progress events. *)
Inductive ChanOp : Type :=
  | Send (p : Progress.t)
  | Close.

(** The transforms that [Save] and [openSnapshot] call: [json.Marshal]
    and [json.Unmarshal] at type [Snapshot] (the latter fills the
    snapshot it is given), and the library's [Compress], [Uncompress],
    [Encrypt] and [Decrypt]. *)
Class Transforms : Type := {
  Marshal : Snapshot.t -> bytes * option error;
  Unmarshal : bytes -> Snapshot.t -> Snapshot.t * option error;
  Compress : bytes -> N -> bytes * option error;
  Uncompress : bytes -> N -> bytes * option error;
  Encrypt : bytes -> string -> bytes * option error;
  Decrypt : bytes -> string -> bytes * option error
}.

(** The methods of [repository.Backend] that [snapshot.go] calls, over
    the state [S] of the storage behind it. *)
Class BackendManager (S : Type) : Type := {
  StoreChunk : Chunk.t -> S -> (N * option error) * S;
  LoadSnapshot : string -> S -> bytes * option error;
  SaveSnapshot : string -> bytes -> S -> option error * S
}.

(** The other functions of the library that the backup pipeline calls:
    the traversal, the test for device paths, the chunker (the chunks it
    delivers on its channel, and its error) and the chunk index. *)
Class Pipeline : Type := {
  findFiles : string -> list string -> list ArchiveResult.t;
  isSpecialPath : string -> bool;
  chunkFile : string -> N -> N -> string -> N -> N
              -> list ChunkResult.t * option error;
  ChunkIndex : Type;
  ChunkIndex_AddArchive : Archive.t -> string -> ChunkIndex -> ChunkIndex
}.

(** What a run of the backup pipeline leaves behind: the operations on
    the progress channel in order, the snapshot, the chunk index and the
    state of the storage. *)
Record Run (I S : Type) : Type := mkRun {
  progress : list ChanOp;
  snapshot : Snapshot.t;
  chunkIndex : I;
  storage : S
}.
Arguments mkRun {I S} _ _ _ _.
Arguments progress {I S} _.
Arguments snapshot {I S} _.
Arguments chunkIndex {I S} _.
Arguments storage {I S} _.

(** [progress <- p], placed before the operations of the rest of the run. *)
Definition sending {I S : Type} (p : Progress.t) (run : Run I S) : Run I S :=
  mkRun (Send p :: progress run) (snapshot run) (chunkIndex run) (storage run).

(** The outcome of the loop over the chunks of one file: the events sent,
    whether the loop ran to its end ([false] when it closed the channel
    and returned), and the archive, snapshot and storage as it left
    them. *)
Record Stored (S : Type) : Type := mkStored {
  sent : list Progress.t;
  completed : bool;
  stored_archive : Archive.t;
  stored_snapshot : Snapshot.t;
  stored_storage : S
}.
Arguments mkStored {S} _ _ _ _ _.
Arguments sent {S} _.
Arguments completed {S} _.
Arguments stored_archive {S} _.
Arguments stored_snapshot {S} _.
Arguments stored_storage {S} _.

Section snapshot_go.

Context {T : Transforms} {S : Type} {B : BackendManager S} {P : Pipeline}.

(** The statements that make a path relative to [cwd], lines 58 to 61
    of [gatherTargetInformation] and again lines 99 to 102 of [Add]. *)
Definition normalizePath (cwd path : string) : string :=
  let '(rel, err) := filepath.Rel cwd path in
  if negb (isErr err) && negb (strings.HasPrefix rel "../") then rel
  else path.

(** The path under which an entry discovered at [path] is filed: both
    [gatherTargetInformation] and [Add] make it relative. *)
Definition storedPath (cwd path : string) : string :=
  normalizePath cwd (normalizePath cwd path).

(** The loop of [gatherTargetInformation] over the results of one
    [findFiles]: what it forwards to [out], and the snapshot with the
    sizes added. *)
Fixpoint forward (cwd : string) (c : list ArchiveResult.t) (snapshot : Snapshot.t)
  : list ArchiveResult.t * Snapshot.t :=
  match c with
  | [] => ([], snapshot)
  | result :: c =>
      match ArchiveResult.Error result with
      | None =>
          let archive := ArchiveResult.Archive result in
          let archive :=
            Archive.withPath archive (normalizePath cwd (Archive.Path archive)) in
          if isSpecialPath (Archive.Path archive) then forward cwd c snapshot
          else
            let stats := Snapshot.Stats snapshot in
            let snapshot :=
              Snapshot.withStats snapshot
                (Stats.mk (add64 (Stats.Size stats) (Archive.Size archive))
                   (Stats.Transferred stats) (Stats.StorageSize stats)) in
            let '(out, snapshot) := forward cwd c snapshot in
            (ArchiveResult.mk archive None :: out, snapshot)
      | Some _ =>
          let '(out, snapshot) := forward cwd c snapshot in
          (result :: out, snapshot)
      end
  end.

(** [gatherTargetInformation]: the results it sends on [out], listed in
    the order of their discovery, and the snapshot with the sizes added.
    Each result is sent by a goroutine of its own (lines 71 to 75), so
    the order in which [out] delivers them is not this order: see
    [delivers]. *)
Fixpoint gatherTargetInformation (cwd : string) (paths excludes : list string)
    (snapshot : Snapshot.t) : list ArchiveResult.t * Snapshot.t :=
  match paths with
  | [] => ([], snapshot)
  | path :: paths =>
      let '(out1, snapshot) := forward cwd (findFiles path excludes) snapshot in
      let '(out2, snapshot) := gatherTargetInformation cwd paths excludes snapshot in
      ((out1 ++ out2)%list, snapshot)
  end.

(** The sequences in which [out] can deliver the results of
    [gatherTargetInformation]: the sending goroutines run in any order,
    so every arrangement of the results sent. *)
Definition delivers (cwd : string) (paths excludes : list string)
    (snapshot : Snapshot.t) (fwd : list ArchiveResult.t) : Prop :=
  fwd ≡ₚ fst (gatherTargetInformation cwd paths excludes snapshot).

(** [AddArchive]. *)
Definition AddArchive (snapshot : Snapshot.t) (archive : Archive.t) : Snapshot.t :=
  Snapshot.withArchives snapshot
    (<[Archive.Path archive := archive]> (Snapshot.Archives snapshot)).

(** The loop of [Add] over the chunks of one file, lines 128 to 162.
    [err] is the variable that [chunkFile] assigned; the [err] that
    [StoreChunk] assigns is local to the body of the loop. *)
Fixpoint storeChunks (chunkchan : list ChunkResult.t) (err : option error)
    (archive : Archive.t) (p : Progress.t) (snapshot : Snapshot.t) (st : S)
  : Stored S :=
  match chunkchan with
  | [] => mkStored [] true archive snapshot st
  | cd :: chunkchan =>
      if isErr (ChunkResult.Error cd) then
        mkStored [newProgressError err] false archive snapshot st
      else
        let chunk := ChunkResult.Chunk cd in
        let '((n, err'), st) := StoreChunk chunk st in
        if isErr err' then
          mkStored [newProgressError err'] false archive snapshot st
        else
          let chunk := Chunk.withData chunk [] in
          let archive := Archive.withChunk archive chunk n in
          let current := Progress.CurrentItemStats p in
          let p :=
            Progress.withCurrentItemStats p
              (Stats.mk (Stats.Size current)
                 (add64 (Stats.Transferred current)
                    (to_uint64 (Chunk.OriginalSize chunk)))
                 (Archive.StorageSize archive)) in
          let stats := Snapshot.Stats snapshot in
          let snapshot :=
            Snapshot.withStats snapshot
              (Stats.mk (Stats.Size stats)
                 (add64 (Stats.Transferred stats)
                    (to_uint64 (Chunk.OriginalSize chunk)))
                 (add64 (Stats.StorageSize stats) n)) in
          let p := Progress.withTotalStatistics p (Snapshot.Stats snapshot) in
          let rest := storeChunks chunkchan err archive p snapshot st in
          mkStored (p :: sent rest) (completed rest) (stored_archive rest)
            (stored_snapshot rest) (stored_storage rest)
  end.

Section Add.

Variables (cwd : string) (repository : Repository.t)
          (compress encrypt : N) (parityParts : N).

(** The goroutine of [Add] that receives from [fwd], lines 90 to
    169, on the results in the order it receives them.  [dataParts]
    is assigned in the loop and so is passed on; its maximum with 1
    is taken on integers (the source goes through [float64], which is
    exact below 2^53). *)
Fixpoint consume (fwd : list ArchiveResult.t) (dataParts : N)
    (snapshot : Snapshot.t) (chunkIndex : ChunkIndex) (st : S)
  : Run ChunkIndex S :=
  match fwd with
  | [] => mkRun [Close] snapshot chunkIndex st
  | result :: fwd =>
      match ArchiveResult.Error result with
      | Some e =>
          mkRun [Send (newProgressError (Some e)); Close] snapshot chunkIndex st
      | None =>
          let archive := ArchiveResult.Archive result in
          let archive :=
            Archive.withPath archive (normalizePath cwd (Archive.Path archive)) in
          if isSpecialPath (Archive.Path archive) then
            consume fwd dataParts snapshot chunkIndex st
          else
            let p :=
              Progress.withTotalStatistics (newProgress archive)
                (Snapshot.Stats snapshot) in
            sending p
              match Archive.Type_ archive with
              | File =>
                  let dataParts := N.max 1 dataParts in
                  let '(chunkchan, err) :=
                    chunkFile (Archive.Path archive) compress encrypt
                      (Repository.Password repository) dataParts parityParts in
                  match err with
                  | Some e =>
                      if IsNotExist e then
                        consume fwd dataParts snapshot chunkIndex st
                      else
                        mkRun [Send (newProgressError err); Close]
                          snapshot chunkIndex st
                  | None =>
                      let archive := Archive.withCodecs archive encrypt compress in
                      let r := storeChunks chunkchan err archive p snapshot st in
                      if completed r then
                        let snapshot :=
                          AddArchive (stored_snapshot r) (stored_archive r) in
                        let chunkIndex :=
                          ChunkIndex_AddArchive (stored_archive r)
                            (Snapshot.ID snapshot) chunkIndex in
                        fold_right sending
                          (consume fwd dataParts snapshot chunkIndex
                             (stored_storage r))
                          (sent r)
                      else
                        fold_right sending
                          (mkRun [Close] (stored_snapshot r) chunkIndex
                             (stored_storage r))
                          (sent r)
                  end
              | _ =>
                  let snapshot := AddArchive snapshot archive in
                  let chunkIndex :=
                    ChunkIndex_AddArchive archive (Snapshot.ID snapshot)
                      chunkIndex in
                  consume fwd dataParts snapshot chunkIndex st
              end
      end
  end.

(** The entry as [Add] holds it once it has made the path relative. *)
Definition received (result : ArchiveResult.t) : Archive.t :=
  Archive.withPath (ArchiveResult.Archive result)
    (normalizePath cwd (Archive.Path (ArchiveResult.Archive result))).

(** The event [Add] sends when it starts on an entry. *)
Definition started (result : ArchiveResult.t) (snapshot : Snapshot.t)
  : Progress.t :=
  Progress.withTotalStatistics (newProgress (received result))
    (Snapshot.Stats snapshot).

(** [Add], on the schedule on which the discovery goroutine runs to
    its end first and [fwd] delivers the results in the order of
    their discovery. *)
Definition Add (paths excludes : list string) (chunkIndex : ChunkIndex)
    (dataParts : N) (snapshot : Snapshot.t) (st : S) : Run ChunkIndex S :=
  let '(fwd, snapshot) := gatherTargetInformation cwd paths excludes snapshot in
  consume fwd dataParts snapshot chunkIndex st.

End Add.

(** [openSnapshot]. *)
Definition openSnapshot (id : string) (repository : Repository.t) (st : S)
  : Snapshot.t * option error :=
  let snapshot := Snapshot.zero in
  let '(b, err) := LoadSnapshot id st in
  if isErr err then (snapshot, err)
  else
    let '(b, err) := Decrypt b (Repository.Password repository) in
    if isErr err then (snapshot, err)
    else
      let compression := CompressionNone in
      let compression :=
        if N.eqb (Repository.Version repository) 1 then CompressionGZip
        else if N.eqb (Repository.Version repository) 2 then CompressionLZMA
        else compression in
      let '(b, err) :=
        if negb (N.eqb compression CompressionNone) then Uncompress b compression
        else (b, err) in
      if isErr err then (snapshot, err)
      else Unmarshal b snapshot.

(** Modelled from the spec: line 224 of [Save], [b := buf.Bytes()], reads
    a buffer [buf] that neither source file declares.  Section 4.7 has
    [Save] compress and encrypt the JSON the snapshot was marshalled to:
    the buffer holds the bytes that [json.Marshal] has just returned. *)
Definition buf_Bytes (marshalled : bytes) : bytes := marshalled.

(** [Save]. *)
Definition Save (snapshot : Snapshot.t) (repository : Repository.t) (st : S)
  : option error * S :=
  let '(b, err) := Marshal snapshot in
  if isErr err then (err, st)
  else
    let b := buf_Bytes b in
    let compression := CompressionNone in
    let compression :=
      if N.eqb (Repository.Version repository) 1 then CompressionGZip
      else if N.eqb (Repository.Version repository) 2 then CompressionLZMA
      else compression in
    let '(b, err) :=
      if negb (N.eqb compression CompressionNone) then Compress b compression
      else (b, err) in
    if isErr err then (err, st)
    else
      let '(b, err) := Encrypt b (Repository.Password repository) in
      if negb (isErr err) then SaveSnapshot (Snapshot.ID snapshot) b st
      else (err, st).

(** *** The pipeline of section 4.7, for comparison with the code *)

(** The codec that section 4.3 assigns to a repository version. *)
Definition spec_versionCodec (version : N) : N :=
  if N.eqb version 1 then CompressionGZip
  else if N.eqb version 2 then CompressionLZMA
  else CompressionNone.

(** Compression with a codec, none for [CompressionNone]. *)
Definition spec_compress (codec : N) (b : bytes) : bytes * option error :=
  if N.eqb codec CompressionNone then (b, None) else Compress b codec.

Definition spec_uncompress (codec : N) (b : bytes) : bytes * option error :=
  if N.eqb codec CompressionNone then (b, None) else Uncompress b codec.

(** Marshal, compress with [codec], encrypt, write. *)
Definition spec_Save (codec : N) (snapshot : Snapshot.t) (password : string) (st : S)
  : option error * S :=
  match Marshal snapshot with
  | (_, Some e) => (Some e, st)
  | (b, None) =>
      match spec_compress codec b with
      | (_, Some e) => (Some e, st)
      | (b, None) =>
          match Encrypt b password with
          | (_, Some e) => (Some e, st)
          | (b, None) => SaveSnapshot (Snapshot.ID snapshot) b st
          end
      end
  end.

(** Load, decrypt, uncompress with [codec], unmarshal. *)
Definition spec_Load (codec : N) (id : string) (password : string) (st : S)
  : Snapshot.t * option error :=
  match LoadSnapshot id st with
  | (_, Some e) => (Snapshot.zero, Some e)
  | (b, None) =>
      match Decrypt b password with
      | (_, Some e) => (Snapshot.zero, Some e)
      | (b, None) =>
          match spec_uncompress codec b with
          | (_, Some e) => (Snapshot.zero, Some e)
          | (b, None) => Unmarshal b Snapshot.zero
          end
      end
  end.

(** *** The contracts of the transforms and of the storage *)


(** An archive and the path it is filed under hold valid UTF-8: the key,
    the path and the hashes of the chunks. *)
Definition validArchive (path : string) (archive : Archive.t) : Prop :=
  utf8.ValidString path = true
  /\ utf8.ValidString (Archive.Path archive) = true
  /\ Forall (fun chunk => utf8.ValidString (Chunk.ShaSum chunk) = true)
       (Archive.Chunks archive).

(** What [json.Marshal] followed by [json.Unmarshal], into an empty
    snapshot, makes of a snapshot: the date and the statistics are as
    they were, the ID and the description have become valid UTF-8, and
    archives that hold valid UTF-8 are as they were. *)
Definition JSONFaithful : Prop :=
  forall s b,
    Marshal s = (b, None) ->
    exists s',
      Unmarshal b Snapshot.zero = (s', None)
      /\ Snapshot.ID s' = json.coerce (Snapshot.ID s)
      /\ Snapshot.Date s' = Snapshot.Date s
      /\ Snapshot.Description s' = json.coerce (Snapshot.Description s)
      /\ Snapshot.Stats s' = Snapshot.Stats s
      /\ (map_Forall validArchive (Snapshot.Archives s) ->
          Snapshot.Archives s' = Snapshot.Archives s).

Definition CompressRoundTrip : Prop :=
  forall b codec z, Compress b codec = (z, None) -> Uncompress z codec = (b, None).

Definition EncryptRoundTrip : Prop :=
  forall b password e,
    Encrypt b password = (e, None) -> Decrypt e password = (b, None).

(** A snapshot saved is the snapshot loaded. *)
Definition StoresSnapshots : Prop :=
  forall id b st st',
    SaveSnapshot id b st = (None, st') -> LoadSnapshot id st' = (b, None).


(** Modelled from the spec: [Encrypt] and [Decrypt] are declared
    outside the two source files.  Section 4.2 has the encryption
    authenticated and keyed by the password: [Decrypt] fails with the
    distinct wrong-password error when authentication fails, as it does
    under any password other than the one that encrypted. *)
Definition Authenticated : Prop :=
  forall b p1 p2 e,
    p1 <> p2 -> Encrypt b p1 = (e, None) ->
    exists b', Decrypt e p2 = (b', Some ErrWrongPassword).

End snapshot_go.

(** The logical size of the entries that [gatherTargetInformation] passed
    on without an error. *)
Definition forwardedSize (out : list ArchiveResult.t) : N :=
  fold_right
    (fun result total =>
       match ArchiveResult.Error result with
       | None => (Archive.Size (ArchiveResult.Archive result) + total)%N
       | Some _ => total
       end)
    0%N out.




(** *** Snapshots as Go holds them

    [Archives] is a Go map: a reference, nil in [Snapshot{}], to a table
    that every copy of the reference shares.  A heap holds the tables;
    [NewSnapshot], [Clone] and [AddArchive] are given over it. *)
Module shared.

Abbreviation Heap := (gmap positive (gmap string Archive.t)).

Module Object.
Record t : Type := mk {
  ID : string;
  Date : Z;
  Description : string;
  Stats : Stats.t;
  Archives : option positive
}.
Definition withID (s : t) (id : string) : t :=
  mk id (Date s) (Description s) (Stats s) (Archives s).
Definition withStats (s : t) (stats : Stats.t) : t :=
  mk (ID s) (Date s) (Description s) stats (Archives s).
Definition withArchives (s : t) (archives : option positive) : t :=
  mk (ID s) (Date s) (Description s) (Stats s) archives.
End Object.

(** The snapshot that an object stands for in a heap; a nil map reads as
    the empty one. *)
Definition read (h : Heap) (s : Object.t) : Snapshot.t :=
  Snapshot.mk (Object.ID s) (Object.Date s) (Object.Description s) (Object.Stats s)
    (match Object.Archives s with
     | Some l => default ∅ (h !! l)
     | None => ∅
     end).

(** [make(map[string]Archive)]. *)
Definition make (h : Heap) : positive * Heap :=
  let l := fresh (dom h) in (l, <[l := ∅]> h).

(** [NewSnapshot].  [now] is the value of [time.Now()]; [uuid_NewV4] is
    the result of [uuid.NewV4()], the UUID given by its [String()].  The
    slice [[:8]] panics on a string of fewer than 8 bytes. *)
Definition NewSnapshot (now : Z) (uuid_NewV4 : string * option error)
    (description : string) (h : Heap) : outcome ((Object.t * option error) * Heap) :=
  let '(archives, h) := make h in
  let snapshot := Object.mk "" now description Stats.zero (Some archives) in
  let '(u, err) := uuid_NewV4 in
  if isErr err then Return ((snapshot, err), h)
  else if Nat.ltb (String.length u) 8 then Panic "slice bounds out of range"
  else Return ((Object.withID snapshot (String.substring 0 8 u), None), h).

(** [Clone]. *)
Definition Clone (now : Z) (uuid_NewV4 : string * option error)
    (snapshot : Object.t) (h : Heap) : outcome ((Object.t * option error) * Heap) :=
  match NewSnapshot now uuid_NewV4 (Object.Description snapshot) h with
  | Panic msg => Panic msg
  | Return ((s, err), h) =>
      if isErr err then Return ((s, err), h)
      else
        let s := Object.withStats s (Object.Stats snapshot) in
        let s := Object.withArchives s (Object.Archives snapshot) in
        Return ((s, None), h)
  end.

(** [AddArchive]; an assignment to an entry of a nil map panics. *)
Definition AddArchive (snapshot : Object.t) (archive : Archive.t) (h : Heap)
  : outcome Heap :=
  match Object.Archives snapshot with
  | None => Panic "assignment to entry in nil map"
  | Some l =>
      Return (<[l := <[Archive.Path archive := archive]> (default ∅ (h !! l))]> h)
  end.

End shared.

End knoxite.

(** ** Instances for the examples

    Small implementations of the interfaces above, on which the
    properties below are run. *)
Module examples.

Import knoxite.

#[global] Instance byte_eq_dec : EqDecision Byte.byte := Byte.byte_eq_dec.

#[global] Instance Stats_eq_dec : EqDecision Stats.t.
Proof. solve_decision. Defined.

#[global] Instance Chunk_eq_dec : EqDecision Chunk.t.
Proof. solve_decision. Defined.

#[global] Instance Archive_eq_dec : EqDecision Archive.t.
Proof. solve_decision. Defined.

#[global] Instance Snapshot_eq_dec : EqDecision Snapshot.t.
Proof. solve_decision. Defined.

(** The snapshot that has the given ID and nothing else. *)
Definition bare (id : string) : Snapshot.t := Snapshot.mk id 0 "" Stats.zero ∅.

(** A marshaller for bare snapshots, which writes the ID. *)
Definition marshalBare (s : Snapshot.t) : bytes * option error :=
  if decide (s = bare (Snapshot.ID s)) then
    (String.list_byte_of_string (Snapshot.ID s), None)
  else ([], Some (ErrOther "json: unsupported value")).

Definition unmarshalBare (b : bytes) (s : Snapshot.t) : Snapshot.t * option error :=
  (Snapshot.mk (String.string_of_list_byte b) (Snapshot.Date s)
     (Snapshot.Description s) (Snapshot.Stats s) (Snapshot.Archives s), None).

(** A codec that marks the data with a byte for the codec. *)
Definition mark (codec : N) : Byte.byte :=
  if N.eqb codec CompressionGZip then Byte.x1f else Byte.xfd.

Definition compressMark (b : bytes) (codec : N) : bytes * option error :=
  (mark codec :: b, None).

Definition uncompressMark (z : bytes) (codec : N) : bytes * option error :=
  match z with
  | _ :: b => (b, None)
  | [] => ([], Some (ErrOther "unexpected EOF"))
  end.

(** A seal for a password: each of its bytes after a byte 1, then a
    byte 0.  No seal is a prefix of another. *)
Fixpoint seal (password : list Byte.byte) : bytes :=
  match password with
  | [] => [Byte.x00]
  | c :: password => Byte.x01 :: c :: seal password
  end.

(** What follows a prefix, when the data starts with it. *)
Fixpoint stripPrefix (prefix data : bytes) : option bytes :=
  match prefix, data with
  | [], _ => Some data
  | p :: prefix, d :: data =>
      if decide (p = d) then stripPrefix prefix data else None
  | _ :: _, [] => None
  end.

Definition encryptSeal (b : bytes) (password : string) : bytes * option error :=
  ((seal (String.list_byte_of_string password) ++ b)%list, None).

Definition decryptSeal (e : bytes) (password : string) : bytes * option error :=
  match stripPrefix (seal (String.list_byte_of_string password)) e with
  | Some b => (b, None)
  | None => ([], Some ErrWrongPassword)
  end.

Definition transforms : Transforms :=
  {| Marshal := marshalBare; Unmarshal := unmarshalBare;
     Compress := compressMark; Uncompress := uncompressMark;
     Encrypt := encryptSeal; Decrypt := decryptSeal |}.

(** *** A codec for whole snapshots

    Snapshots are countable; the codec writes the binary digits of the
    code of the snapshot, after it has coerced the strings to valid UTF-8
    as [encoding/json] does. *)

#[global] Instance byte_countable : Countable Byte.byte :=
  inj_countable Byte.to_N Byte.of_N Byte.of_to_N.

#[global] Instance ArchiveType_countable : Countable ArchiveType :=
  inj_countable'
    (fun t => match t with Directory => 0%N | File => 1%N | SymLink => 2%N end)
    (fun n => match n with 0%N => Directory | 1%N => File | _ => SymLink end)
    (fun t => match t with Directory | File | SymLink => eq_refl end).

#[global] Instance Stats_countable : Countable Stats.t :=
  inj_countable'
    (fun x => (Stats.Size x, Stats.Transferred x, Stats.StorageSize x))
    (fun '(a, b, c) => Stats.mk a b c)
    (fun x => match x with Stats.mk _ _ _ => eq_refl end).

#[global] Instance Chunk_countable : Countable Chunk.t :=
  inj_countable'
    (fun x => (Chunk.Data x, Chunk.DataParts x, Chunk.ParityParts x,
               Chunk.OriginalSize x, Chunk.Size x, Chunk.ShaSum x, Chunk.Num x))
    (fun '(a, b, c, d, e, f, g) => Chunk.mk a b c d e f g)
    (fun x => match x with Chunk.mk _ _ _ _ _ _ _ => eq_refl end).

#[global] Instance Archive_countable : Countable Archive.t :=
  inj_countable'
    (fun x => (Archive.Path x, Archive.Type_ x, Archive.Size x, Archive.StorageSize x,
               Archive.Encrypted x, Archive.Compressed x, Archive.Chunks x))
    (fun '(a, b, c, d, e, f, g) => Archive.mk a b c d e f g)
    (fun x => match x with Archive.mk _ _ _ _ _ _ _ => eq_refl end).

#[global] Instance Snapshot_countable : Countable Snapshot.t :=
  inj_countable'
    (fun x => (Snapshot.ID x, Snapshot.Date x, Snapshot.Description x,
               Snapshot.Stats x, Snapshot.Archives x))
    (fun '(a, b, c, d, e) => Snapshot.mk a b c d e)
    (fun x => match x with Snapshot.mk _ _ _ _ _ => eq_refl end).

(** The binary digits of a positive number, the lowest first, as the
    characters 0 and 1. *)
Fixpoint digits (p : positive) : bytes :=
  match p with
  | xH => []
  | xO p => Byte.x30 :: digits p
  | xI p => Byte.x31 :: digits p
  end.

Fixpoint undigits (b : bytes) : option positive :=
  match b with
  | [] => Some xH
  | d :: b =>
      match undigits b with
      | Some p =>
          if decide (d = Byte.x30) then Some (xO p)
          else if decide (d = Byte.x31) then Some (xI p)
          else None
      | None => None
      end
  end.

(** An archive with its strings coerced, and the archives of a snapshot
    with theirs and their keys; of two keys that have become equal the
    one later in the listing of the map stays. *)
Definition coerceChunk (chunk : Chunk.t) : Chunk.t :=
  Chunk.mk (Chunk.Data chunk) (Chunk.DataParts chunk) (Chunk.ParityParts chunk)
    (Chunk.OriginalSize chunk) (Chunk.Size chunk) (json.coerce (Chunk.ShaSum chunk))
    (Chunk.Num chunk).

Definition coerceArchive (archive : Archive.t) : Archive.t :=
  Archive.mk (json.coerce (Archive.Path archive)) (Archive.Type_ archive)
    (Archive.Size archive) (Archive.StorageSize archive) (Archive.Encrypted archive)
    (Archive.Compressed archive) (map coerceChunk (Archive.Chunks archive)).

Definition coerceItem (item : string * Archive.t) : string * Archive.t :=
  (json.coerce (fst item), coerceArchive (snd item)).

Definition coerceSnapshot (s : Snapshot.t) : Snapshot.t :=
  Snapshot.mk (json.coerce (Snapshot.ID s)) (Snapshot.Date s)
    (json.coerce (Snapshot.Description s)) (Snapshot.Stats s)
    (list_to_map (map coerceItem (map_to_list (Snapshot.Archives s)))).

Definition marshalCoded (s : Snapshot.t) : bytes * option error :=
  (digits (encode (coerceSnapshot s)), None).

Definition unmarshalCoded (b : bytes) (s : Snapshot.t) : Snapshot.t * option error :=
  match undigits b ≫= decode with
  | Some s' => (s', None)
  | None => (s, Some (ErrOther "invalid character looking for beginning of value"))
  end.

Definition coded : Transforms :=
  {| Marshal := marshalCoded; Unmarshal := unmarshalCoded;
     Compress := compressMark; Uncompress := uncompressMark;
     Encrypt := encryptSeal; Decrypt := decryptSeal |}.

(** A client constructor that accepts every endpoint. *)
Definition dial (endpoint accessKeyID secretAccessKey : string) (secure : bool)
  : option minio.Client * option error :=
  (Some (minio.Build_Client endpoint accessKeyID secretAccessKey secure), None).

Definition repoURL (scheme : string) : url.URL :=
  {| url.Scheme := scheme;
     url.User := Some (url.Build_Userinfo "key" "secret" true);
     url.Host := "s3.example.org";
     url.Path := "/us-east-1/repo" |}.

(** An Amazon S3 backend as [NewBackend] names its buckets. *)
Definition s3 : amazons3.StorageAmazonS3 :=
  {| amazons3.url := repoURL "s3";
     amazons3.chunkBucket := "repo-chunks";
     amazons3.snapshotBucket := "repo-snapshots";
     amazons3.repositoryBucket := "repo-repository";
     amazons3.region := "us-east-1";
     amazons3.client :=
       Some (minio.Build_Client "s3.example.org" "key" "secret" false) |}.

(** The shards of a chunk stored one after the other, from index [i]. *)
Fixpoint storeShards (shasum : string) (totalParts i : N) (shards : list bytes)
    (svc : minio.Service) : (N * option error) * minio.Service :=
  match shards with
  | [] => ((0%N, None), svc)
  | data :: shards =>
      let '((n, err), svc) := amazons3.StoreChunk s3 shasum i totalParts data svc in
      if isErr err then ((n, err), svc)
      else
        let '((m, err), svc) := storeShards shasum totalParts (i + 1) shards svc in
        ((add64 n m, err), svc)
  end.

(** A manager over that one backend. *)
Definition manager : BackendManager minio.Service :=
  {| StoreChunk := fun chunk =>
       storeShards (Chunk.ShaSum chunk)
         (N.of_nat (length (Chunk.Data chunk))) 0 (Chunk.Data chunk);
     LoadSnapshot := amazons3.LoadSnapshot s3;
     SaveSnapshot := amazons3.SaveSnapshot s3 |}.

(** The store of a repository just initialised. *)
Definition initialised : minio.Service :=
  <["repo-repository" := ∅]> (<["repo-snapshots" := ∅]> (<["repo-chunks" := ∅]> ∅)).

(** A store that holds one shard. *)
Definition oneShard : minio.Service :=
  <["repo-chunks" := {["ab12.0_1" := [Byte.x61]]}]> initialised.

Definition entry (path : string) (type : ArchiveType) (size : N) : ArchiveResult.t :=
  ArchiveResult.mk (Archive.mk path type size 0 0 0 []) None.

Definition chunkOf (shasum : string) (data : bytes) : Chunk.t :=
  Chunk.mk [data] 1 0 (Z.of_nat (length data)) (Z.of_nat (length data)) shasum 0.

(** A file system with a directory, a file in it, a file that is gone
    when it is opened and a file that fails while it is read. *)
Definition pipeline : Pipeline :=
  {| findFiles := fun path excludes =>
       if String.eqb path "/home/a" then
         [entry "/home/a/x" Directory 0; entry "/home/a/x/y" File 1]
       else if String.eqb path "/home/a/gone" then [entry "/home/a/gone" File 1]
       else if String.eqb path "/home/a/bad" then [entry "/home/a/bad" File 1]
       else if String.eqb path "/dev/null" then [entry "/dev/null" File 0]
       else [];
     isSpecialPath := fun path => strings.HasPrefix path "/dev/";
     chunkFile := fun path compress encrypt password dataParts parityParts =>
       if String.eqb path "gone" then ([], Some (ErrNotExist path))
       else if String.eqb path "bad" then
         ([ChunkResult.mk Chunk.zero (Some (ErrOther "read: input/output error"))],
          None)
       else ([ChunkResult.mk (chunkOf "ab12" [Byte.x61]) None], None);
     ChunkIndex := list (string * string);
     ChunkIndex_AddArchive := fun archive id index =>
       (id, Archive.Path archive) :: index |}.


Definition repository : Repository.t := Repository.mk 1 "pw".
Definition intruder : Repository.t := Repository.mk 1 "guess".

(** A UUID as its [String()] gives it. *)
Definition uuidString : string := "123e4567-e89b-12d3-a456-426614174000".

(** A heap with one table of archives, and the snapshot that holds it. *)
Definition heap : shared.Heap := {[1%positive := ∅]}.

Definition original : shared.Object.t :=
  shared.Object.mk "0a1b2c3d" 0 "nightly" (Stats.mk 7 0 0) (Some 1%positive).

(** [Snapshot{}] as an object: no table. *)
Definition blank : shared.Object.t := shared.Object.mk "" 0 "" Stats.zero None.

(** An archive for a directory. *)
Definition directory (path : string) : Archive.t := Archive.mk path Directory 0 0 0 0 [].

(** A snapshot of a directory and a file in it. *)
Definition nightly : Snapshot.t :=
  Snapshot.mk "0a1b2c3d" 1478000000000000000 "nightly" (Stats.mk 7 7 9)
    (<["x/y" := Archive.mk "x/y" File 7 9 1 1 [Chunk.mk [] 1 0 7 9 "ab12" 0]]>
       (<["x" := directory "x"]> ∅)).

(** A snapshot whose description is the one byte 0xff, which starts no
    UTF-8 encoding. *)
Definition garbled : Snapshot.t :=
  Snapshot.mk "5e6f7a8b" 1478000000000000000 (String (ascii_of_N 255) "") Stats.zero ∅.

(** A store in which only the snapshots bucket exists. *)
Definition snapshotsOnly : minio.Service := <["repo-snapshots" := ∅]> ∅.


(** A snapshot that the marshaller for bare snapshots refuses. *)
Definition dated : Snapshot.t := Snapshot.mk "5e6f7a8b" 1478000000 "" Stats.zero ∅.

(** A result of the traversal that carries an error. *)
Definition unreadable : ArchiveResult.t :=
  ArchiveResult.mk (Archive.mk "" Directory 0 0 0 0 [])
    (Some (ErrOther "open /home/a/secret: permission denied")).

End examples.

(** * Properties *)

Import knoxite.

(** ** The Amazon S3 backend *)

Section amazons3_properties.

Variable backend : amazons3.StorageAmazonS3.

(** C9.  [DeleteChunk] of the Amazon S3 backend returns
    [ErrDeleteChunkFailed] for every hash, shard index and shard count,
    and leaves the store as it was: every blob of the chunks namespace
    loads after the call as it did before. *)
Theorem DeleteChunk_never_deletes (shasum : string) (part totalParts : N)
    (svc : minio.Service) :
  amazons3.DeleteChunk backend shasum part totalParts svc
    = (Some ErrDeleteChunkFailed, svc)
  /\ forall shasum' part' totalParts',
       amazons3.LoadChunk backend shasum' part' totalParts'
         (snd (amazons3.DeleteChunk backend shasum part totalParts svc))
       = amazons3.LoadChunk backend shasum' part' totalParts' svc.
Proof. split; reflexivity. Qed.

Lemma to_uint64_length (data : bytes) :
  (Z.of_nat (length data) < 2 ^ 63)%Z ->
  to_uint64 (Z.of_nat (length data)) = N.of_nat (length data).
Proof.
  intros Hlen. unfold to_uint64, uint64_modulus.
  rewrite Z.mod_small by (change (Z.of_N (2 ^ 64)) with (2 ^ 64)%Z; lia).
  lia.
Qed.

(** C5.  [StoreChunk] is idempotent.  In a store that has the chunks
    bucket: when the blob named after the hash, shard index and shard
    count exists, the call returns size 0 and no error and the store is
    unchanged; when it does not, the call writes the payload under that
    name and returns the payload's size. *)
Theorem StoreChunk_idempotent (shasum : string) (part totalParts : N)
    (data : bytes) (svc : minio.Service) (objects : gmap string bytes) :
  svc !! amazons3.chunkBucket backend = Some objects ->
  (Z.of_nat (length data) < 2 ^ 63)%Z ->
  let name := amazons3.fileName shasum part totalParts in
  (is_Some (objects !! name) ->
     amazons3.StoreChunk backend shasum part totalParts data svc = ((0%N, None), svc))
  /\ (objects !! name = None ->
        amazons3.StoreChunk backend shasum part totalParts data svc
        = ((N.of_nat (length data), None),
           <[amazons3.chunkBucket backend := <[name := data]> objects]> svc)).
Proof.
  intros Hbucket Hlen name. unfold amazons3.StoreChunk, minio.StatObject, minio.PutObject.
  fold name. rewrite Hbucket. split.
  - intros [old Hold]. rewrite Hold. reflexivity.
  - intros Hnone. rewrite Hnone. cbn. rewrite to_uint64_length by assumption.
    reflexivity.
Qed.

Lemma MakeBucket_fresh (bucket location : string) (svc : minio.Service) :
  svc !! bucket = None ->
  minio.MakeBucket bucket location svc = (None, <[bucket := ∅]> svc).
Proof. intros Hnone. unfold minio.MakeBucket. rewrite Hnone. reflexivity. Qed.

(** [InitRepository] step by step: each bucket is tested in the store
    that the steps before it left. *)
Lemma InitRepository_steps (svc : minio.Service) :
  let chunks := amazons3.chunkBucket backend in
  let snapshots := amazons3.snapshotBucket backend in
  let repository := amazons3.repositoryBucket backend in
  let svc1 := <[chunks := ∅]> svc in
  let svc2 := <[snapshots := ∅]> svc1 in
  amazons3.InitRepository backend svc =
    match svc !! chunks with
    | Some _ => (Some ErrRepositoryExists, svc)
    | None =>
        match svc1 !! snapshots with
        | Some _ => (Some ErrRepositoryExists, svc1)
        | None =>
            match svc2 !! repository with
            | Some _ => (Some ErrRepositoryExists, svc2)
            | None => (None, <[repository := ∅]> svc2)
            end
        end
    end.
Proof.
  intros chunks snapshots repository svc1 svc2.
  unfold amazons3.InitRepository, minio.BucketExists.
  fold chunks snapshots repository.
  destruct (svc !! chunks) eqn:Hc.
  { rewrite bool_decide_eq_true_2 by eauto. reflexivity. }
  rewrite bool_decide_eq_false_2 by (intros [? ?]; discriminate).
  cbn [isErr]. rewrite (MakeBucket_fresh _ _ _ Hc). cbn [isErr]. fold svc1.
  destruct (svc1 !! snapshots) eqn:Hs.
  { rewrite bool_decide_eq_true_2 by eauto. reflexivity. }
  rewrite bool_decide_eq_false_2 by (intros [? ?]; discriminate).
  cbn [isErr]. rewrite (MakeBucket_fresh _ _ _ Hs). cbn [isErr]. fold svc2.
  destruct (svc2 !! repository) eqn:Hr.
  { rewrite bool_decide_eq_true_2 by eauto. reflexivity. }
  rewrite bool_decide_eq_false_2 by (intros [? ?]; discriminate).
  cbn [isErr]. rewrite (MakeBucket_fresh _ _ _ Hr). reflexivity.
Qed.

(** C6.  [InitRepository] returns [ErrRepositoryExists] whenever one of
    the chunks, snapshots and repository buckets exists beforehand; when
    it succeeds none of them existed and all three exist afterwards; and
    it does succeed, creating the three buckets, when none of them
    existed and their names differ. *)
Theorem InitRepository_exists (svc : minio.Service) :
  let chunks := amazons3.chunkBucket backend in
  let snapshots := amazons3.snapshotBucket backend in
  let repository := amazons3.repositoryBucket backend in
  (is_Some (svc !! chunks) \/ is_Some (svc !! snapshots) \/ is_Some (svc !! repository) ->
     fst (amazons3.InitRepository backend svc) = Some ErrRepositoryExists)
  /\ (forall svc',
        amazons3.InitRepository backend svc = (None, svc') ->
        svc !! chunks = None /\ svc !! snapshots = None /\ svc !! repository = None
        /\ is_Some (svc' !! chunks) /\ is_Some (svc' !! snapshots)
        /\ is_Some (svc' !! repository))
  /\ (chunks <> snapshots -> chunks <> repository -> snapshots <> repository ->
      svc !! chunks = None -> svc !! snapshots = None -> svc !! repository = None ->
      amazons3.InitRepository backend svc
      = (None, <[repository := ∅]> (<[snapshots := ∅]> (<[chunks := ∅]> svc)))).
Proof.
  intros chunks snapshots repository.
  pose proof (InitRepository_steps svc) as Hsteps. cbv zeta in Hsteps.
  fold chunks snapshots repository in Hsteps. rewrite Hsteps. clear Hsteps.
  split; [|split].
  - intros Hpre.
    destruct (svc !! chunks) eqn:Hc; [reflexivity|].
    destruct (<[chunks:=∅]> svc !! snapshots) eqn:Hs; [reflexivity|].
    destruct (<[snapshots:=∅]> (<[chunks:=∅]> svc) !! repository) eqn:Hr; [reflexivity|].
    exfalso.
    apply lookup_insert_None in Hs as [Hs _].
    apply lookup_insert_None in Hr as [Hr _].
    apply lookup_insert_None in Hr as [Hr _].
    destruct Hpre as [[? H]|[[? H]|[? H]]]; congruence.
  - intros svc' Hok.
    destruct (svc !! chunks) eqn:Hc; [discriminate|].
    destruct (<[chunks:=∅]> svc !! snapshots) eqn:Hs; [discriminate|].
    destruct (<[snapshots:=∅]> (<[chunks:=∅]> svc) !! repository) eqn:Hr; [discriminate|].
    injection Hok as <-.
    apply lookup_insert_None in Hs as [Hs Hcs].
    apply lookup_insert_None in Hr as [Hr Hsr].
    apply lookup_insert_None in Hr as [Hr Hcr].
    repeat split; try assumption.
    + rewrite lookup_insert_ne, lookup_insert_ne, lookup_insert_eq by congruence. eauto.
    + rewrite lookup_insert_ne, lookup_insert_eq by congruence. eauto.
    + rewrite lookup_insert_eq. eauto.
  - intros Hcs Hcr Hsr Hc Hs Hr.
    rewrite Hc.
    rewrite (lookup_insert_ne svc chunks snapshots) by assumption. rewrite Hs.
    rewrite lookup_insert_ne, lookup_insert_ne by assumption. rewrite Hr.
    reflexivity.
Qed.

End amazons3_properties.

Section NewBackend_properties.

Variable minio_New :
  string -> string -> string -> bool -> option minio.Client * option error.

Lemma append_inj_l (p a b : string) : p +:+ a = p +:+ b -> a = b.
Proof. induction p as [|c p IH]; cbn; intros H; [assumption|]. injection H. auto. Qed.

(** The backends that [NewBackend] constructs name three different
    buckets. *)
Lemma NewBackend_buckets_differ (URL : url.URL) (backend : amazons3.StorageAmazonS3) :
  amazons3.NewBackend minio_New URL = Return (backend, None) ->
  amazons3.chunkBucket backend <> amazons3.snapshotBucket backend
  /\ amazons3.chunkBucket backend <> amazons3.repositoryBucket backend
  /\ amazons3.snapshotBucket backend <> amazons3.repositoryBucket backend.
Proof.
  unfold amazons3.NewBackend.
  destruct (String.eqb (url.Scheme URL) "s3");
    [|destruct (String.eqb (url.Scheme URL) "s3s"); [|discriminate]].
  all: destruct (String.eqb _ ""); [discriminate|].
  all: destruct (url.Password (url.User URL)) as [pw [|]]; cbn [negb]; [|discriminate].
  all: destruct (strings.Split (url.Path URL) "/") as [|? [|region1 [|prefix2 [|? ?]]]];
    try discriminate.
  all: destruct (minio_New _ _ _ _) as [cl [e|]]; cbn [isErr]; [discriminate|].
  all: intros [= <-]; cbn.
  all: repeat split; intros H; apply append_inj_l in H; discriminate.
Qed.

(** C10.  [NewBackend] panics on every URL whose scheme is neither [s3]
    nor [s3s], and returns on the two schemes; on [s3] the client is
    constructed without SSL and on [s3s] with SSL, whatever the
    constructor does with the flag otherwise. *)
Theorem NewBackend_scheme (URL : url.URL) :
  (url.Scheme URL <> "s3" -> url.Scheme URL <> "s3s" ->
     amazons3.NewBackend minio_New URL = Panic "Invalid s3 url scheme")
  /\ (url.Scheme URL = "s3" ->
      (exists r, amazons3.NewBackend minio_New URL = Return r)
      /\ amazons3.NewBackend minio_New URL
         = amazons3.NewBackend (fun e a s _ => minio_New e a s false) URL
      /\ forall backend,
           amazons3.NewBackend minio_New URL = Return (backend, None) ->
           minio_New (url.Host URL) (url.Username (url.User URL))
             (fst (url.Password (url.User URL))) false
           = (amazons3.client backend, None))
  /\ (url.Scheme URL = "s3s" ->
      (exists r, amazons3.NewBackend minio_New URL = Return r)
      /\ amazons3.NewBackend minio_New URL
         = amazons3.NewBackend (fun e a s _ => minio_New e a s true) URL
      /\ forall backend,
           amazons3.NewBackend minio_New URL = Return (backend, None) ->
           minio_New (url.Host URL) (url.Username (url.User URL))
             (fst (url.Password (url.User URL))) true
           = (amazons3.client backend, None)).
Proof.
  unfold amazons3.NewBackend. split; [|split].
  - intros H1 H2.
    apply String.eqb_neq in H1, H2. rewrite H1, H2. reflexivity.
  - intros ->. cbn [String.eqb Ascii.eqb Bool.eqb].
    change (String.eqb "s3" "s3") with true. cbv iota.
    destruct (String.eqb _ ""); [split; [eauto|split; [reflexivity|discriminate]]|].
    destruct (url.Password (url.User URL)) as [pw [|]]; cbn [negb fst];
      [|split; [eauto|split; [reflexivity|discriminate]]].
    destruct (strings.Split (url.Path URL) "/") as [|? [|region1 [|prefix2 [|? ?]]]];
      try (split; [eauto|split; [reflexivity|discriminate]]).
    destruct (minio_New _ _ _ _) as [cl [e|]]; cbn [isErr];
      (split; [eauto|split; [reflexivity|]]); [discriminate|].
    intros backend [= <-]. reflexivity.
  - intros ->.
    change (String.eqb "s3s" "s3") with false.
    change (String.eqb "s3s" "s3s") with true. cbv iota.
    destruct (String.eqb _ ""); [split; [eauto|split; [reflexivity|discriminate]]|].
    destruct (url.Password (url.User URL)) as [pw [|]]; cbn [negb fst];
      [|split; [eauto|split; [reflexivity|discriminate]]].
    destruct (strings.Split (url.Path URL) "/") as [|? [|region1 [|prefix2 [|? ?]]]];
      try (split; [eauto|split; [reflexivity|discriminate]]).
    destruct (minio_New _ _ _ _) as [cl [e|]]; cbn [isErr];
      (split; [eauto|split; [reflexivity|]]); [discriminate|].
    intros backend [= <-]. reflexivity.
Qed.

End NewBackend_properties.

(** ** Snapshot persistence *)

Section persistence.

Context {T : Transforms} {S : Type} {B : BackendManager S}.

Lemma Save_spec (s : Snapshot.t) (r : Repository.t) (st : S) :
  Save s r st
  = spec_Save (spec_versionCodec (Repository.Version r)) s (Repository.Password r) st.
Proof.
  unfold Save, buf_Bytes, spec_Save, spec_compress, spec_versionCodec.
  destruct (Marshal s) as [j [e|]]; cbn [isErr]; [reflexivity|].
  destruct (N.eqb (Repository.Version r) 1);
    [|destruct (N.eqb (Repository.Version r) 2)]; cbn.
  - destruct (Compress j CompressionGZip) as [z [e|]]; cbn; [reflexivity|].
    destruct (Encrypt z _) as [c [e|]]; reflexivity.
  - destruct (Compress j CompressionLZMA) as [z [e|]]; cbn; [reflexivity|].
    destruct (Encrypt z _) as [c [e|]]; reflexivity.
  - destruct (Encrypt j _) as [c [e|]]; reflexivity.
Qed.

Lemma openSnapshot_spec (id : string) (r : Repository.t) (st : S) :
  openSnapshot id r st
  = spec_Load (spec_versionCodec (Repository.Version r)) id (Repository.Password r) st.
Proof.
  unfold openSnapshot, spec_Load, spec_uncompress, spec_versionCodec.
  destruct (LoadSnapshot id st) as [c [e|]]; cbn [isErr]; [reflexivity|].
  destruct (Decrypt c _) as [z [e|]]; cbn [isErr]; [reflexivity|].
  destruct (N.eqb (Repository.Version r) 1);
    [|destruct (N.eqb (Repository.Version r) 2)]; cbn.
  - destruct (Uncompress z CompressionGZip) as [j [e|]]; reflexivity.
  - destruct (Uncompress z CompressionLZMA) as [j [e|]]; reflexivity.
  - reflexivity.
Qed.

(** C2.  [Save] and [openSnapshot] are the pipelines of section 4.7 run
    with the codec of the repository version, the same in both: GZip for
    version 1, LZMA for version 2, and no compression for every other
    version. *)
Theorem metadata_compression_by_version
    (s : Snapshot.t) (id : string) (r : Repository.t) (st : S) :
  Save s r st
    = spec_Save (spec_versionCodec (Repository.Version r)) s (Repository.Password r) st
  /\ openSnapshot id r st
    = spec_Load (spec_versionCodec (Repository.Version r)) id (Repository.Password r) st
  /\ spec_versionCodec 1 = CompressionGZip
  /\ spec_versionCodec 2 = CompressionLZMA
  /\ (forall version, version <> 1%N -> version <> 2%N ->
        spec_versionCodec version = CompressionNone
        /\ (forall b, spec_compress (spec_versionCodec version) b = (b, None))
        /\ (forall b, spec_uncompress (spec_versionCodec version) b = (b, None))).
Proof.
  split; [apply Save_spec|]. split; [apply openSnapshot_spec|].
  split; [reflexivity|]. split; [reflexivity|].
  intros version H1 H2. unfold spec_versionCodec, spec_compress, spec_uncompress.
  apply N.eqb_neq in H1, H2. rewrite H1, H2. repeat split.
Qed.

(** [Save] succeeds when each of its four steps does. *)
Lemma Save_succeeds (s : Snapshot.t) (r : Repository.t) (st st' : S) (j z c : bytes) :
  Marshal s = (j, None) ->
  spec_compress (spec_versionCodec (Repository.Version r)) j = (z, None) ->
  Encrypt z (Repository.Password r) = (c, None) ->
  SaveSnapshot (Snapshot.ID s) c st = (None, st') ->
  Save s r st = (None, st').
Proof.
  intros Hj Hz Hc Hst. rewrite Save_spec. unfold spec_Save.
  rewrite Hj, Hz, Hc. exact Hst.
Qed.

(** What a successful [Save] wrote: the snapshot marshalled, compressed
    for the version and encrypted under the password. *)
Lemma Save_inv (s : Snapshot.t) (r : Repository.t) (st st' : S) :
  Save s r st = (None, st') ->
  exists j z c,
    Marshal s = (j, None)
    /\ spec_compress (spec_versionCodec (Repository.Version r)) j = (z, None)
    /\ Encrypt z (Repository.Password r) = (c, None)
    /\ SaveSnapshot (Snapshot.ID s) c st = (None, st').
Proof.
  rewrite Save_spec. unfold spec_Save.
  destruct (Marshal s) as [j [e|]] eqn:Hj; [discriminate|].
  destruct (spec_compress _ j) as [z [e|]] eqn:Hz; [discriminate|].
  destruct (Encrypt z _) as [c [e|]] eqn:Hc; [discriminate|].
  intros Hst. exists j, z, c. auto.
Qed.

Lemma spec_compress_roundtrip (codec : N) (j z : bytes) :
  CompressRoundTrip ->
  spec_compress codec j = (z, None) -> spec_uncompress codec z = (j, None).
Proof.
  intros Hrt. unfold spec_compress, spec_uncompress.
  destruct (N.eqb codec CompressionNone); [congruence|]. apply Hrt.
Qed.

(** A valid string is as it was after [json.Marshal] and
    [json.Unmarshal]. *)
Lemma coerceFrom_valid (s : string) :
  forall skip, utf8.validFrom skip s = true -> json.coerceFrom skip s = s.
Proof.
  induction s as [|c rest IH]; intros skip; [reflexivity|].
  destruct skip as [|k].
  - cbn [utf8.validFrom json.coerceFrom].
    destruct (utf8.runeLen (String c rest)) as [n|]; [|discriminate].
    intros Hvalid. f_equal. apply IH, Hvalid.
  - cbn [utf8.validFrom json.coerceFrom]. intros Hvalid. f_equal. apply IH, Hvalid.
Qed.

Lemma coerce_valid (s : string) : utf8.ValidString s = true -> json.coerce s = s.
Proof. apply coerceFrom_valid. Qed.

(** C1.  Snapshot persistence, through JSON.  A successful [Save] has
    marshalled the snapshot, compressed the JSON with the codec of the
    repository version, encrypted it under the password and written it
    under the ID of the snapshot.  With [encoding/json] as it is, codecs
    and encryption that invert what they did and a backend that loads
    what it saved, [openSnapshot] under that ID and the same repository
    then returns, with no error, a snapshot with the same date and
    statistics, with the ID and the description coerced to valid UTF-8,
    and with the same archives when these hold valid UTF-8: the snapshot
    itself when all its strings are valid UTF-8. *)
Theorem Save_openSnapshot_roundtrip :
  JSONFaithful -> CompressRoundTrip -> EncryptRoundTrip -> StoresSnapshots ->
  forall (s : Snapshot.t) (r : Repository.t) (st st' : S),
    Save s r st = (None, st') ->
    (exists j z c,
       Marshal s = (j, None)
       /\ spec_compress (spec_versionCodec (Repository.Version r)) j = (z, None)
       /\ Encrypt z (Repository.Password r) = (c, None)
       /\ SaveSnapshot (Snapshot.ID s) c st = (None, st'))
    /\ exists s',
         openSnapshot (Snapshot.ID s) r st' = (s', None)
         /\ Snapshot.ID s' = json.coerce (Snapshot.ID s)
         /\ Snapshot.Date s' = Snapshot.Date s
         /\ Snapshot.Description s' = json.coerce (Snapshot.Description s)
         /\ Snapshot.Stats s' = Snapshot.Stats s
         /\ (map_Forall validArchive (Snapshot.Archives s) ->
             Snapshot.Archives s' = Snapshot.Archives s)
         /\ (utf8.ValidString (Snapshot.ID s) = true ->
             utf8.ValidString (Snapshot.Description s) = true ->
             map_Forall validArchive (Snapshot.Archives s) ->
             s' = s).
Proof.
  intros Hjson Hcomp Hcrypt Hback s r st st' Hsave.
  apply Save_inv in Hsave as (j & z & c & Hj & Hz & Hc & Hst).
  split; [exists j, z, c; auto|].
  destruct (Hjson s j Hj) as (s' & Hs' & Hid & Hdate & Hdesc & Hstats & Harch).
  exists s'. split.
  { rewrite openSnapshot_spec. unfold spec_Load.
    rewrite (Hback _ _ _ _ Hst), (Hcrypt _ _ _ Hc).
    rewrite (spec_compress_roundtrip _ _ _ Hcomp Hz). exact Hs'. }
  repeat (split; [assumption|]).
  intros Hvid Hvdesc Hvarch.
  rewrite (coerce_valid _ Hvid) in Hid. rewrite (coerce_valid _ Hvdesc) in Hdesc.
  specialize (Harch Hvarch).
  destruct s, s'; cbn in *; congruence.
Qed.

(** C3.  Password isolation.  With authenticated encryption and a backend
    that loads what it saved, a snapshot saved under one password does
    not open under another: [openSnapshot] returns the error of
    [Decrypt], the wrong-password error, together with the empty
    snapshot it started from. *)
Theorem openSnapshot_wrong_password :
  Authenticated -> StoresSnapshots ->
  forall (s : Snapshot.t) (r1 r2 : Repository.t) (st st' : S),
    Save s r1 st = (None, st') ->
    Repository.Password r2 <> Repository.Password r1 ->
    openSnapshot (Snapshot.ID s) r2 st' = (Snapshot.zero, Some ErrWrongPassword).
Proof.
  intros Hauth Hback s r1 r2 st st' Hsave Hpw.
  apply Save_inv in Hsave as (j & z & c & Hj & Hz & Hc & Hst).
  unfold openSnapshot. rewrite (Hback _ _ _ _ Hst). cbn [isErr].
  destruct (Hauth z _ _ c (not_eq_sym Hpw) Hc) as [b' ->]. reflexivity.
Qed.

End persistence.

(** ** Paths *)

Section filepath_properties.

Import filepath.

Local Abbreviation sep := Separator.

Lemma Split_nosep (x : string) :
  strings.Contains x sep = false -> strings.Split x sep = [x].
Proof.
  induction x as [|a x IH]; [reflexivity|].
  cbn [strings.Contains strings.Split]. intros H.
  apply orb_false_iff in H as [Ha Hx]. rewrite Ha, (IH Hx). reflexivity.
Qed.

Lemma Split_app_sep (x rest : string) :
  strings.Contains x sep = false ->
  strings.Split (x +:+ String sep rest) sep = x :: strings.Split rest sep.
Proof.
  induction x as [|a x IH]; [reflexivity|].
  cbn [strings.Contains]. intros H.
  apply orb_false_iff in H as [Ha Hx].
  change (String a x +:+ String sep rest) with (String a (x +:+ String sep rest)).
  cbn [strings.Split]. rewrite Ha, (IH Hx). reflexivity.
Qed.

Lemma Join_cons2 (x y : string) (l : list string) :
  strings.Join (x :: y :: l) "/" = x +:+ String sep (strings.Join (y :: l) "/").
Proof. reflexivity. Qed.

Lemma Split_Join (l : list string) :
  l <> [] -> Forall (fun e => strings.Contains e sep = false) l ->
  strings.Split (strings.Join l "/") sep = l.
Proof.
  induction l as [|x [|y l] IH]; intros Hne Hall; [congruence| |].
  - apply Split_nosep. inversion Hall; assumption.
  - rewrite Join_cons2. inversion Hall as [|? ? Hx Hrest]; subst.
    rewrite (Split_app_sep _ _ Hx), IH; [reflexivity|discriminate|assumption].
Qed.

Lemma properElem_nosep (e : string) :
  properElem e = true -> strings.Contains e sep = false.
Proof.
  unfold properElem. intros H. repeat (apply andb_true_iff in H as [H ?]).
  apply negb_true_iff. assumption.
Qed.

Lemma proper_nosep (l : list string) :
  Forall (fun e => properElem e = true) l ->
  Forall (fun e => strings.Contains e sep = false) l.
Proof. intros H. eapply Forall_impl; [exact H|]. exact properElem_nosep. Qed.

Lemma cleanStep_proper (rooted : bool) (out : list string) (e : string) :
  properElem e = true -> cleanStep rooted out e = e :: out.
Proof.
  unfold properElem, cleanStep. intros H. repeat (apply andb_true_iff in H as [H ?]).
  repeat match goal with
         | H : negb _ = true |- _ => apply negb_true_iff in H
         end.
  repeat match goal with
         | H : String.eqb _ _ = false |- _ => rewrite H
         end.
  reflexivity.
Qed.

Lemma fold_cleanStep_proper (rooted : bool) (l out : list string) :
  Forall (fun e => properElem e = true) l ->
  fold_left (cleanStep rooted) l out = (rev l ++ out)%list.
Proof.
  revert out. induction l as [|e l IH]; intros out Hall; [reflexivity|].
  inversion Hall as [|? ? He Hl]; subst. cbn [fold_left rev].
  rewrite (cleanStep_proper _ _ _ He), (IH _ Hl), <- app_assoc. reflexivity.
Qed.

(** The elements of an absolute path. *)
Lemma Split_absPath (cs : list string) :
  Forall (fun e => properElem e = true) cs ->
  strings.Split (absPath cs) sep = "" :: match cs with [] => [""] | _ => cs end.
Proof.
  intros Hall. unfold absPath.
  change ("/" +:+ strings.Join cs "/") with (String sep (strings.Join cs "/")).
  cbn [strings.Split]. change (Ascii.eqb sep sep) with true. cbv iota.
  destruct cs as [|c cs]; [reflexivity|].
  rewrite Split_Join; [reflexivity|discriminate|apply proper_nosep, Hall].
Qed.

(** An absolute path of proper elements is clean. *)
Lemma Clean_absPath (cs : list string) :
  Forall (fun e => properElem e = true) cs -> Clean (absPath cs) = absPath cs.
Proof.
  intros Hall. unfold Clean. rewrite (Split_absPath _ Hall).
  change (String.eqb (absPath cs) "") with false.
  change (slashed (absPath cs)) with true. cbv iota zeta.
  destruct cs as [|c cs]; [reflexivity|].
  change (fold_left (cleanStep true) ("" :: c :: cs) [])
    with (fold_left (cleanStep true) (c :: cs) []).
  rewrite (fold_cleanStep_proper _ _ _ Hall), app_nil_r, rev_involutive.
  reflexivity.
Qed.

Lemma proper_head (d : string) :
  properElem d = true ->
  exists a d', d = String a d' /\ Ascii.eqb a sep = false.
Proof.
  intros H. pose proof (properElem_nosep _ H) as Hsep.
  destruct d as [|a d']; [discriminate|].
  cbn in Hsep. apply orb_false_iff in Hsep as [Ha _]. eauto.
Qed.

Lemma Join_head (a : ascii) (d' : string) (ds : list string) :
  exists rest, strings.Join (String a d' :: ds) "/" = String a rest.
Proof. destruct ds; cbn; eauto. Qed.


Lemma relLoop_same (e : string) (bs ts : list string) :
  restEmpty (e :: bs) = false -> restEmpty (e :: ts) = false ->
  relLoop (e :: bs) (e :: ts) = relLoop bs ts.
Proof.
  intros Hb Ht. change (relLoop (e :: bs) (e :: ts))
    with (if restEmpty (e :: bs) || restEmpty (e :: ts) then (e :: bs, "", e :: ts)
          else if String.eqb e e then relLoop bs ts else (e :: bs, e, e :: ts)).
  rewrite Hb, Ht, String.eqb_refl. reflexivity.
Qed.


Lemma absPath_inj (cs cs' : list string) :
  Forall (fun e => properElem e = true) cs ->
  Forall (fun e => properElem e = true) cs' ->
  absPath cs = absPath cs' -> cs = cs'.
Proof.
  intros Hall Hall' Heq. apply (f_equal (fun p => strings.Split p sep)) in Heq.
  rewrite (Split_absPath _ Hall), (Split_absPath _ Hall') in Heq.
  destruct cs as [|c cs], cs' as [|c' cs']; try congruence.
  - injection Heq as <- <-. inversion Hall'; discriminate.
  - injection Heq as -> ->. inversion Hall; discriminate.
Qed.










End filepath_properties.

(** ** The backup pipeline *)

Section pipeline.

Context {S : Type} {B : BackendManager S} {P : Pipeline}.

Variables (cwd : string) (repository : Repository.t)
          (compress encrypt : N) (parityParts : N).

Local Abbreviation consume := (consume cwd repository compress encrypt parityParts).
Local Abbreviation Add := (Add cwd repository compress encrypt parityParts).

Local Abbreviation received := (received cwd).
Local Abbreviation started := (started cwd).

Lemma started_no_error (result : ArchiveResult.t) (snapshot : Snapshot.t) :
  Progress.Error (started result snapshot) = None.
Proof. reflexivity. Qed.

(** C7.  A regular file that is gone when the chunker opens it (the
    error of [chunkFile] satisfies [os.IsNotExist]) is skipped: [Add]
    has sent its start event, which carries no error, sends nothing else
    for it, adds nothing to the snapshot, the index or the storage, and
    goes on with the remaining entries. *)
Theorem Add_skips_vanished_file
    (result : ArchiveResult.t) (fwd : list ArchiveResult.t) (dataParts : N)
    (snapshot : Snapshot.t) (chunkIndex : ChunkIndex) (st : S)
    (chunkchan : list ChunkResult.t) (e : error) :
  ArchiveResult.Error result = None ->
  isSpecialPath (Archive.Path (received result)) = false ->
  Archive.Type_ (received result) = File ->
  chunkFile (Archive.Path (received result)) compress encrypt
    (Repository.Password repository) (N.max 1 dataParts) parityParts
  = (chunkchan, Some e) ->
  IsNotExist e = true ->
  consume (result :: fwd) dataParts snapshot chunkIndex st
  = sending (started result snapshot)
      (consume fwd (N.max 1 dataParts) snapshot chunkIndex st)
  /\ Progress.Error (started result snapshot) = None.
Proof.
  intros Herr Hspecial Htype Hchunk Hgone. split; [|reflexivity].
  cbn [knoxite.consume]. rewrite Herr. fold (knoxite.received cwd result).
  rewrite Hspecial, Htype, Hchunk, Hgone. reflexivity.
Qed.

(** An error of [StoreChunk] on the first chunk of a file is sent as the
    last event, and the channel is closed. *)
Lemma Add_StoreChunk_error
    (result : ArchiveResult.t) (fwd : list ArchiveResult.t) (dataParts : N)
    (snapshot : Snapshot.t) (chunkIndex : ChunkIndex) (st st' : S)
    (cd : ChunkResult.t) (chunkchan : list ChunkResult.t) (n : N) (e : error) :
  ArchiveResult.Error result = None ->
  isSpecialPath (Archive.Path (received result)) = false ->
  Archive.Type_ (received result) = File ->
  chunkFile (Archive.Path (received result)) compress encrypt
    (Repository.Password repository) (N.max 1 dataParts) parityParts
  = (cd :: chunkchan, None) ->
  ChunkResult.Error cd = None ->
  StoreChunk (ChunkResult.Chunk cd) st = ((n, Some e), st') ->
  consume (result :: fwd) dataParts snapshot chunkIndex st
  = mkRun [Send (started result snapshot); Send (newProgressError (Some e)); Close]
      snapshot chunkIndex st'.
Proof.
  intros Herr Hspecial Htype Hchunk Hcd Hstore.
  cbn [knoxite.consume]. rewrite Herr. fold (knoxite.received cwd result).
  rewrite Hspecial, Htype, Hchunk. cbn [storeChunks]. rewrite Hcd, Hstore.
  reflexivity.
Qed.

(** An error of [chunkFile] other than a missing file is sent as the last
    event, and the channel is closed. *)
Lemma Add_chunkFile_error
    (result : ArchiveResult.t) (fwd : list ArchiveResult.t) (dataParts : N)
    (snapshot : Snapshot.t) (chunkIndex : ChunkIndex) (st : S)
    (chunkchan : list ChunkResult.t) (e : error) :
  ArchiveResult.Error result = None ->
  isSpecialPath (Archive.Path (received result)) = false ->
  Archive.Type_ (received result) = File ->
  chunkFile (Archive.Path (received result)) compress encrypt
    (Repository.Password repository) (N.max 1 dataParts) parityParts
  = (chunkchan, Some e) ->
  IsNotExist e = false ->
  consume (result :: fwd) dataParts snapshot chunkIndex st
  = mkRun [Send (started result snapshot); Send (newProgressError (Some e)); Close]
      snapshot chunkIndex st.
Proof.
  intros Herr Hspecial Htype Hchunk Hother.
  cbn [knoxite.consume]. rewrite Herr. fold (knoxite.received cwd result).
  rewrite Hspecial, Htype, Hchunk, Hother. reflexivity.
Qed.

(** C4.  An error that the chunker delivers with a chunk does not reach
    the progress channel.  When the first chunk of a file carries an
    error, [Add] sends a last event, closes the channel and takes up no
    further entry, but the event is built from the error variable of
    [chunkFile], which is nil at that point: it carries no error. *)
Theorem Add_chunk_error_is_dropped
    (result : ArchiveResult.t) (fwd : list ArchiveResult.t) (dataParts : N)
    (snapshot : Snapshot.t) (chunkIndex : ChunkIndex) (st : S)
    (cd : ChunkResult.t) (chunkchan : list ChunkResult.t) (e : error) :
  ArchiveResult.Error result = None ->
  isSpecialPath (Archive.Path (received result)) = false ->
  Archive.Type_ (received result) = File ->
  chunkFile (Archive.Path (received result)) compress encrypt
    (Repository.Password repository) (N.max 1 dataParts) parityParts
  = (cd :: chunkchan, None) ->
  ChunkResult.Error cd = Some e ->
  consume (result :: fwd) dataParts snapshot chunkIndex st
  = mkRun [Send (started result snapshot); Send (newProgressError None); Close]
      snapshot chunkIndex st
  /\ Progress.Error (newProgressError None) <> Some e.
Proof.
  intros Herr Hspecial Htype Hchunk Hcd. split; [|discriminate].
  cbn [knoxite.consume]. rewrite Herr. fold (knoxite.received cwd result).
  rewrite Hspecial, Htype, Hchunk. cbn [storeChunks]. rewrite Hcd.
  reflexivity.
Qed.

(** *** No device path enters the snapshot *)

Lemma sending_snapshot (p : Progress.t) (run : Run ChunkIndex S) :
  snapshot (sending p run) = snapshot run.
Proof. reflexivity. Qed.

Lemma fold_sending_snapshot (ps : list Progress.t) (run : Run ChunkIndex S) :
  snapshot (fold_right sending run ps) = snapshot run.
Proof. induction ps as [|p ps IH]; [reflexivity|]. cbn. exact IH. Qed.







(** *** What a run without errors files *)

(** A regular file is chunked without error, with [dataParts] parts. *)
Local Abbreviation chunked :=
  (fun (dataParts : N) (path : string) =>
     exists chunkchan,
       chunkFile path compress encrypt (Repository.Password repository)
         dataParts parityParts = (chunkchan, None)
       /\ Forall (fun cd => ChunkResult.Error cd = None) chunkchan).

(** The entry [r] is filed under [key] as [a]. *)
Local Abbreviation filedAs :=
  (fun (key : string) (a : Archive.t) (r : ArchiveResult.t) =>
     isSpecialPath key = false
     /\ Archive.Path (received r) = key
     /\ Archive.Type_ a = Archive.Type_ (ArchiveResult.Archive r)
     /\ Archive.Size a = Archive.Size (ArchiveResult.Archive r)).





End pipeline.

(** ** Path normalization in the pipeline *)

Section normalization.

Context {S : Type} {B : BackendManager S} {P : Pipeline}.

Variables (repository : Repository.t) (compress encrypt : N) (parityParts : N).


End normalization.

(** ** The properties on the examples *)

Section examples_laws.

Import examples.


Lemma compressMark_roundtrip : @CompressRoundTrip transforms.
Proof. intros b codec z H. cbn in H. injection H as <-. reflexivity. Qed.

Lemma stripPrefix_app (prefix b : bytes) : stripPrefix prefix (prefix ++ b) = Some b.
Proof.
  induction prefix as [|p prefix IH]; [reflexivity|].
  cbn. rewrite decide_True by reflexivity. exact IH.
Qed.

Lemma encryptSeal_roundtrip : @EncryptRoundTrip transforms.
Proof.
  intros b password e H. cbn in H. injection H as <-. cbn. unfold decryptSeal.
  rewrite stripPrefix_app. reflexivity.
Qed.

(** No seal opens what another sealed. *)
Lemma stripPrefix_seal (p1 p2 : list Byte.byte) (b : bytes) :
  p1 <> p2 -> stripPrefix (seal p2) (seal p1 ++ b) = None.
Proof.
  revert p2. induction p1 as [|c1 p1 IH]; intros [|c2 p2] Hne; cbn.
  - congruence.
  - reflexivity.
  - reflexivity.
  - rewrite decide_True by reflexivity.
    destruct (decide (c2 = c1)) as [->|]; [|reflexivity].
    apply IH. congruence.
Qed.

Lemma encryptSeal_authenticated : @Authenticated transforms.
Proof.
  intros b p1 p2 e Hne H. cbn in H. injection H as <-. cbn. unfold decryptSeal.
  rewrite stripPrefix_seal; [eauto|].
  intros Heq. apply Hne.
  rewrite <- (String.string_of_list_byte_of_string p1),
          <- (String.string_of_list_byte_of_string p2).
  congruence.
Qed.

(** The Amazon S3 backend loads the snapshot it saved. *)
Lemma undigits_digits (p : positive) : undigits (digits p) = Some p.
Proof.
  induction p as [p IH|p IH|]; cbn [digits undigits]; [| |reflexivity];
    rewrite IH; reflexivity.
Qed.

Lemma coerceChunk_valid (chunk : Chunk.t) :
  utf8.ValidString (Chunk.ShaSum chunk) = true -> coerceChunk chunk = chunk.
Proof.
  intros Hvalid. unfold coerceChunk. rewrite (coerce_valid _ Hvalid).
  destruct chunk; reflexivity.
Qed.

Lemma coerceItem_valid (path : string) (archive : Archive.t) :
  validArchive path archive -> coerceItem (path, archive) = (path, archive).
Proof.
  intros (Hkey & Hpath & Hchunks). unfold coerceItem, coerceArchive. cbn [fst snd].
  rewrite (coerce_valid _ Hkey), (coerce_valid _ Hpath).
  replace (map coerceChunk (Archive.Chunks archive)) with (Archive.Chunks archive).
  { destruct archive; reflexivity. }
  induction Hchunks as [|chunk chunks Hchunk _ IH]; [reflexivity|].
  cbn [map]. rewrite (coerceChunk_valid _ Hchunk), <- IH. reflexivity.
Qed.

(** The codec for whole snapshots does to a snapshot what
    [encoding/json] does. *)
Lemma coded_JSONFaithful : @JSONFaithful coded.
Proof.
  intros s b [= <-]. exists (coerceSnapshot s).
  split; [|repeat (split; [reflexivity|])].
  - cbn [Unmarshal coded]. unfold unmarshalCoded.
    rewrite undigits_digits. cbn [mbind option_bind]. rewrite decode_encode.
    reflexivity.
  - intros Hvalid. cbn [coerceSnapshot Snapshot.Archives].
    replace (map coerceItem (map_to_list (Snapshot.Archives s)))
      with (map_to_list (Snapshot.Archives s)); [apply list_to_map_to_list|].
    rewrite <- (map_id (map_to_list (Snapshot.Archives s))) at 1.
    apply map_ext_in. intros [path archive] Hin. symmetry. apply coerceItem_valid.
    apply (Hvalid path archive). apply elem_of_map_to_list, list_elem_of_In, Hin.
Qed.

Lemma coded_CompressRoundTrip : @CompressRoundTrip coded.
Proof. exact compressMark_roundtrip. Qed.

Lemma coded_EncryptRoundTrip : @EncryptRoundTrip coded.
Proof. exact encryptSeal_roundtrip. Qed.

Lemma amazons3_StoresSnapshots (backend : amazons3.StorageAmazonS3)
    (id : string) (b : bytes) (svc svc' : minio.Service) :
  amazons3.SaveSnapshot backend id b svc = (None, svc') ->
  amazons3.LoadSnapshot backend id svc' = (b, None).
Proof.
  unfold amazons3.SaveSnapshot, amazons3.LoadSnapshot, minio.PutObject, minio.GetObject.
  destruct (svc !! amazons3.snapshotBucket backend) as [objects|]; [|discriminate].
  intros [= <-]. rewrite lookup_insert_eq, lookup_insert_eq. reflexivity.
Qed.

Lemma manager_StoresSnapshots : @StoresSnapshots _ manager.
Proof. intros id b st st'. apply amazons3_StoresSnapshots. Qed.

End examples_laws.

Section examples_runs.

Import examples.

Lemma StoreChunk_idempotent_witness :
  oneShard !! "repo-chunks" = Some {["ab12.0_1" := [Byte.x61]]}
  /\ amazons3.StoreChunk s3 "ab12" 0 1 [Byte.x62] oneShard = ((0%N, None), oneShard)
  /\ amazons3.StoreChunk s3 "cd34" 0 1 [Byte.x62] oneShard
     = ((1%N, None),
        <["repo-chunks" :=
            <["cd34.0_1" := [Byte.x62]]> {["ab12.0_1" := [Byte.x61]]}]> oneShard).
Proof.
  assert (Hbucket : oneShard !! amazons3.chunkBucket s3
                    = Some {["ab12.0_1" := [Byte.x61]]})
    by (vm_compute; reflexivity).
  assert (Hlen : (Z.of_nat (length [Byte.x62]) < 2 ^ 63)%Z) by (vm_compute; reflexivity).
  split; [exact Hbucket|]. split.
  - apply (StoreChunk_idempotent s3 "ab12" 0 1 [Byte.x62] oneShard _ Hbucket Hlen).
    exists [Byte.x61]. vm_compute. reflexivity.
  - apply (StoreChunk_idempotent s3 "cd34" 0 1 [Byte.x62] oneShard _ Hbucket Hlen).
    vm_compute. reflexivity.
Defined.

Lemma InitRepository_exists_witness :
  is_Some (initialised !! "repo-snapshots")
  /\ fst (amazons3.InitRepository s3 initialised) = Some ErrRepositoryExists
  /\ amazons3.InitRepository s3 ∅ = (None, initialised).
Proof.
  assert (Hpre : is_Some (initialised !! "repo-snapshots"))
    by (exists ∅; vm_compute; reflexivity).
  split; [exact Hpre|]. split.
  - apply (InitRepository_exists s3 initialised). right. left. exact Hpre.
  - apply (InitRepository_exists s3 ∅); try discriminate; reflexivity.
Defined.

Lemma NewBackend_scheme_witness :
  amazons3.NewBackend dial (repoURL "ftp") = Panic "Invalid s3 url scheme"
  /\ amazons3.NewBackend dial (repoURL "s3") = Return (s3, None)
  /\ dial "s3.example.org" "key" "secret" false = (amazons3.client s3, None)
  /\ exists r, amazons3.NewBackend dial (repoURL "s3s") = Return r.
Proof.
  assert (Hs3 : amazons3.NewBackend dial (repoURL "s3") = Return (s3, None))
    by reflexivity.
  split; [|split; [exact Hs3|split]].
  - apply (proj1 (NewBackend_scheme dial (repoURL "ftp"))); discriminate.
  - apply (proj1 (proj2 (NewBackend_scheme dial (repoURL "s3"))) eq_refl).
    exact Hs3.
  - apply (proj2 (proj2 (NewBackend_scheme dial (repoURL "s3s")))). reflexivity.
Defined.

Lemma metadata_compression_by_version_witness :
  3%N <> 1%N /\ 3%N <> 2%N
  /\ @spec_versionCodec 3 = CompressionNone.
Proof.
  assert (H1 : 3%N <> 1%N) by discriminate.
  assert (H2 : 3%N <> 2%N) by discriminate.
  split; [exact H1|]. split; [exact H2|].
  apply (proj2 (proj2 (proj2 (proj2
           (@metadata_compression_by_version transforms _ manager
              (bare "1a2b3c4d") "1a2b3c4d" repository initialised)))) 3%N H1 H2).
Defined.

(** A snapshot with a date, a description, statistics and two archives,
    saved in a repository just initialised, opens again as it was. *)
Lemma Save_openSnapshot_roundtrip_witness :
  @Save coded _ manager nightly repository initialised
  = (None, snd (@Save coded _ manager nightly repository initialised))
  /\ @openSnapshot coded _ manager "0a1b2c3d" repository
       (snd (@Save coded _ manager nightly repository initialised))
     = (nightly, None).
Proof.
  assert (Hsave :
    @Save coded _ manager nightly repository initialised
    = (None, snd (@Save coded _ manager nightly repository initialised)))
    by (vm_compute; reflexivity).
  assert (Hid : utf8.ValidString (Snapshot.ID nightly) = true) by reflexivity.
  assert (Hdesc : utf8.ValidString (Snapshot.Description nightly) = true)
    by reflexivity.
  assert (Harch : map_Forall validArchive (Snapshot.Archives nightly)).
  { apply map_Forall_insert_2; [split; [reflexivity|split; [reflexivity|]]|].
    - repeat constructor.
    - apply map_Forall_insert_2; [|apply map_Forall_empty].
      split; [reflexivity|split; [reflexivity|constructor]]. }
  split; [exact Hsave|].
  destruct (proj2 (@Save_openSnapshot_roundtrip coded _ manager
                     coded_JSONFaithful coded_CompressRoundTrip coded_EncryptRoundTrip
                     manager_StoresSnapshots nightly repository initialised _ Hsave))
    as (s' & Hopen & _ & _ & _ & _ & _ & Heq).
  rewrite (Heq Hid Hdesc Harch) in Hopen. exact Hopen.
Defined.

(** A description that is not valid UTF-8 does not come back: the byte
    0xff is saved as U+FFFD, and the snapshot opened differs from the
    snapshot saved. *)
Lemma Save_openSnapshot_invalid_utf8 :
  utf8.ValidString (Snapshot.Description garbled) = false
  /\ @Save coded _ manager garbled repository initialised
     = (None, snd (@Save coded _ manager garbled repository initialised))
  /\ exists s',
       @openSnapshot coded _ manager (Snapshot.ID garbled) repository
         (snd (@Save coded _ manager garbled repository initialised))
       = (s', None)
       /\ Snapshot.Description s' = utf8.RuneError
       /\ s' <> garbled.
Proof.
  split; [reflexivity|]. split; [vm_compute; reflexivity|].
  exists (Snapshot.mk "5e6f7a8b" 1478000000000000000 utf8.RuneError Stats.zero ∅).
  split; [vm_compute; reflexivity|]. split; [reflexivity|].
  intros Heq. apply (f_equal Snapshot.Description) in Heq. discriminate Heq.
Qed.

(** The same snapshot does not open under another password. *)
Lemma openSnapshot_wrong_password_witness :
  Repository.Password intruder <> Repository.Password repository
  /\ @openSnapshot transforms _ manager "1a2b3c4d" intruder
       (snd (@Save transforms _ manager (bare "1a2b3c4d") repository initialised))
     = (Snapshot.zero, Some ErrWrongPassword).
Proof.
  assert (Hsave :
    @Save transforms _ manager (bare "1a2b3c4d") repository initialised
    = (None, snd (@Save transforms _ manager (bare "1a2b3c4d") repository initialised)))
    by (vm_compute; reflexivity).
  assert (Hpw : Repository.Password intruder <> Repository.Password repository)
    by discriminate.
  split; [exact Hpw|].
  exact (@openSnapshot_wrong_password transforms _ manager
           encryptSeal_authenticated manager_StoresSnapshots
           (bare "1a2b3c4d") repository intruder initialised _ Hsave Hpw).
Defined.

Lemma Add_skips_vanished_file_witness :
  @consume _ manager pipeline "/home/a" repository 0 0 0
    [entry "/home/a/gone" File 1; entry "/home/a/x" Directory 0] 1
    (bare "1a2b3c4d") [] initialised
  = sending (@started "/home/a" (entry "/home/a/gone" File 1) (bare "1a2b3c4d"))
      (@consume _ manager pipeline "/home/a" repository 0 0 0
         [entry "/home/a/x" Directory 0] (N.max 1 1) (bare "1a2b3c4d") []
         initialised).
Proof.
  apply (@Add_skips_vanished_file _ manager pipeline "/home/a" repository 0 0 0
           (entry "/home/a/gone" File 1) [entry "/home/a/x" Directory 0] 1
           (bare "1a2b3c4d") [] initialised [] (ErrNotExist "gone"));
    vm_compute; reflexivity.
Defined.

Lemma Add_chunk_error_is_dropped_witness :
  @consume _ manager pipeline "/home/a" repository 0 0 0
    [entry "/home/a/bad" File 1; entry "/home/a/x" Directory 0] 1
    (bare "1a2b3c4d") [] initialised
  = mkRun [Send (@started "/home/a" (entry "/home/a/bad" File 1) (bare "1a2b3c4d"));
           Send (newProgressError None); Close]
      (bare "1a2b3c4d") [] initialised.
Proof.
  apply (@Add_chunk_error_is_dropped _ manager pipeline "/home/a" repository 0 0 0
           (entry "/home/a/bad" File 1) [entry "/home/a/x" Directory 0] 1
           (bare "1a2b3c4d") [] initialised
           (ChunkResult.mk Chunk.zero (Some (ErrOther "read: input/output error")))
           [] (ErrOther "read: input/output error"));
    vm_compute; reflexivity.
Defined.



End examples_runs.

(** * Further properties *)

(** ** Blob names *)

Section blob_names.

Lemma Split_not_nil (s : string) (c : ascii) : strings.Split s c <> [].
Proof.
  destruct s as [|a s]; cbn [strings.Split]; [discriminate|].
  destruct (Ascii.eqb a c); [discriminate|].
  destruct (strings.Split s c); discriminate.
Qed.

Lemma Split_app_cons (x y : string) (c : ascii) :
  strings.Split (x +:+ String c y) c = (strings.Split x c ++ strings.Split y c)%list.
Proof.
  induction x as [|a x IH]; cbn [strings.Split].
  - change ("" +:+ String c y) with (String c y). cbn [strings.Split].
    rewrite Ascii.eqb_refl. reflexivity.
  - change (String a x +:+ String c y) with (String a (x +:+ String c y)).
    cbn [strings.Split]. rewrite IH.
    destruct (Ascii.eqb a c); [reflexivity|].
    destruct (strings.Split x c) as [|field fields] eqn:Hx; [|reflexivity].
    exfalso. exact (Split_not_nil x c Hx).
Qed.

(** Joining the fields of a split gives the string back. *)
Lemma Join_Split (s : string) (c : ascii) :
  strings.Join (strings.Split s c) (String c "") = s.
Proof.
  induction s as [|a s IH]; [reflexivity|]. cbn [strings.Split].
  destruct (Ascii.eqb_spec a c) as [->|Hne].
  - unfold strings.Join in *.
    destruct (strings.Split s c) as [|field fields] eqn:Hs.
    + exfalso. exact (Split_not_nil s c Hs).
    + change (String.concat (String c "") ("" :: field :: fields))
        with (String c (String.concat (String c "") (field :: fields))).
      rewrite IH. reflexivity.
  - unfold strings.Join in *.
    destruct (strings.Split s c) as [|field fields] eqn:Hs.
    + exfalso. exact (Split_not_nil s c Hs).
    + rewrite <- IH. destruct fields; reflexivity.
Qed.

Lemma Split_inj (s s' : string) (c : ascii) :
  strings.Split s c = strings.Split s' c -> s = s'.
Proof.
  intros H. rewrite <- (Join_Split s c), <- (Join_Split s' c), H. reflexivity.
Qed.

Lemma Split_without (s : string) (c : ascii) :
  strings.Contains s c = false -> strings.Split s c = [s].
Proof.
  induction s as [|a s IH]; [reflexivity|]. cbn [strings.Contains strings.Split].
  intros H. apply orb_false_iff in H as [Ha Hs]. rewrite Ha, (IH Hs). reflexivity.
Qed.

(** A string is determined by what precedes and what follows its last
    separator. *)
Lemma append_sep_inj (x x' y y' : string) (c : ascii) :
  strings.Contains y c = false -> strings.Contains y' c = false ->
  x +:+ String c y = x' +:+ String c y' -> x = x' /\ y = y'.
Proof.
  intros Hy Hy' Heq. apply (f_equal (fun s => strings.Split s c)) in Heq.
  rewrite !Split_app_cons, (Split_without _ _ Hy), (Split_without _ _ Hy') in Heq.
  apply app_inj_tail in Heq as [Hx ->]. split; [|reflexivity].
  exact (Split_inj _ _ _ Hx).
Qed.

(** The decimal form of a number has digits only. *)
Lemma NilEmpty_digits (d : Decimal.uint) (c : ascii) :
  (c = "." \/ c = "_")%char ->
  strings.Contains (NilEmpty.string_of_uint d) c = false.
Proof.
  intros Hc. induction d; cbn [NilEmpty.string_of_uint strings.Contains];
    try reflexivity; rewrite IHd; destruct Hc as [->| ->]; reflexivity.
Qed.

Lemma FormatUint_digits (n : N) (c : ascii) :
  (c = "." \/ c = "_")%char -> strings.Contains (strconv.FormatUint n) c = false.
Proof.
  intros Hc. unfold strconv.FormatUint, NilZero.string_of_uint.
  destruct (N.to_uint n) eqn:Hd; try (rewrite <- Hd; apply NilEmpty_digits; exact Hc).
  destruct Hc as [->| ->]; reflexivity.
Qed.

Lemma to_uint_not_nil (n : N) : N.to_uint n <> Decimal.Nil.
Proof.
  intros H. pose proof (DecimalN.Unsigned.to_of (N.to_uint n)) as Hn.
  rewrite DecimalN.Unsigned.of_to in Hn.
  destruct n as [|p]; [discriminate|].
  cbn in H. pose proof (DecimalPos.Unsigned.to_uint_nonnil p). contradiction.
Qed.

Lemma FormatUint_inj (n n' : N) :
  strconv.FormatUint n = strconv.FormatUint n' -> n = n'.
Proof.
  unfold strconv.FormatUint. intros H.
  apply DecimalN.Unsigned.to_uint_inj.
  pose proof (NilZero.usu _ (to_uint_not_nil n)) as Hn.
  pose proof (NilZero.usu _ (to_uint_not_nil n')) as Hn'.
  rewrite H in Hn. congruence.
Qed.

Lemma append_assoc (a b c : string) : (a +:+ b) +:+ c = a +:+ b +:+ c.
Proof.
  induction a as [|x a IH]; [reflexivity|].
  change ((String x a +:+ b) +:+ c) with (String x ((a +:+ b) +:+ c)).
  rewrite IH. reflexivity.
Qed.

Lemma fileName_fields (shasum shasum' : string) (part part' totalParts totalParts' : N) :
  amazons3.fileName shasum part totalParts = amazons3.fileName shasum' part' totalParts' ->
  shasum = shasum' /\ part = part' /\ totalParts = totalParts'.
Proof.
  unfold amazons3.fileName. intros H.
  change (shasum +:+ "." +:+ strconv.FormatUint part +:+ "_"
            +:+ strconv.FormatUint totalParts)
    with (shasum +:+ String "." (strconv.FormatUint part
            +:+ String "_" (strconv.FormatUint totalParts))) in H.
  change (shasum' +:+ "." +:+ strconv.FormatUint part' +:+ "_"
            +:+ strconv.FormatUint totalParts')
    with (shasum' +:+ String "." (strconv.FormatUint part'
            +:+ String "_" (strconv.FormatUint totalParts'))) in H.
  change (String "." ?s) with ("." +:+ s) in H.
  rewrite <- !append_assoc in H.
  apply append_sep_inj in H as [H Ht]; [|apply FormatUint_digits; auto..].
  rewrite !append_assoc in H.
  change ("." +:+ ?s) with (String "." s) in H.
  apply append_sep_inj in H as [Hs Hp]; [|apply FormatUint_digits; auto..].
  repeat split; [exact Hs|apply FormatUint_inj, Hp|apply FormatUint_inj, Ht].
Qed.

(** X1.  The name of a shard's blob determines the hash, the shard index and
    the shard count, whatever the hash is: two shards have the same name
    exactly when they are the same shard, so that no shard is stored or
    loaded under the name of another. *)
Theorem fileName_inj (shasum shasum' : string) (part part' totalParts totalParts' : N) :
  amazons3.fileName shasum part totalParts = amazons3.fileName shasum' part' totalParts'
  <-> (shasum, part, totalParts) = (shasum', part', totalParts').
Proof.
  split.
  - intros H. apply fileName_fields in H as (-> & -> & ->). reflexivity.
  - intros [= -> -> ->]. reflexivity.
Qed.

(** The name of a shard's blob contains a dot. *)
Lemma fileName_dot (shasum : string) (part totalParts : N) :
  strings.Contains (amazons3.fileName shasum part totalParts) "." = true.
Proof.
  unfold amazons3.fileName. induction shasum as [|a s IH]; [reflexivity|].
  change (String a s +:+ ?t) with (String a (s +:+ t)).
  cbn [strings.Contains]. rewrite IH. apply orb_true_r.
Qed.

End blob_names.

(** ** The Amazon S3 backend on its store *)

Section s3_store.

Variable backend : amazons3.StorageAmazonS3.

Lemma PutObject_failed (bucket object : string) (data : bytes)
    (svc svc' : minio.Service) (n : Z) (e : error) :
  minio.PutObject bucket object data svc = (n, Some e, svc') -> svc' = svc.
Proof.
  unfold minio.PutObject. destruct (svc !! bucket); [discriminate|]. congruence.
Qed.

Lemma GetObject_PutObject (bucket object : string) (data : bytes)
    (svc svc' : minio.Service) (n : Z) :
  minio.PutObject bucket object data svc = (n, None, svc') ->
  minio.GetObject bucket object svc' = (data, None).
Proof.
  unfold minio.PutObject, minio.GetObject.
  destruct (svc !! bucket) as [objects|]; [|discriminate].
  intros [= _ <-]. rewrite !lookup_insert_eq. reflexivity.
Qed.

Lemma GetObject_PutObject_other (bucket object bucket' object' : string) (data : bytes)
    (svc : minio.Service) :
  bucket' <> bucket \/ object' <> object ->
  minio.GetObject bucket' object' (snd (minio.PutObject bucket object data svc))
  = minio.GetObject bucket' object' svc.
Proof.
  intros Hne. unfold minio.PutObject, minio.GetObject.
  destruct (svc !! bucket) as [objects|] eqn:Hb; [|reflexivity]. cbn [snd].
  destruct (decide (bucket' = bucket)) as [->|Hbucket].
  - destruct Hne as [Hne|Hne]; [congruence|].
    rewrite lookup_insert_eq, Hb, lookup_insert_ne by congruence. reflexivity.
  - rewrite lookup_insert_ne by congruence. reflexivity.
Qed.

Lemma StoreChunk_cases (shasum : string) (part totalParts : N) (data : bytes)
    (svc : minio.Service) :
  let name := amazons3.fileName shasum part totalParts in
  (exists old, minio.GetObject (amazons3.chunkBucket backend) name svc = (old, None)
               /\ amazons3.StoreChunk backend shasum part totalParts data svc
                  = ((0%N, None), svc))
  \/ (isErr (snd (minio.GetObject (amazons3.chunkBucket backend) name svc)) = true
      /\ amazons3.StoreChunk backend shasum part totalParts data svc
         = (let '(i, err, svc') :=
              minio.PutObject (amazons3.chunkBucket backend) name data svc in
            ((to_uint64 i, err), svc'))).
Proof.
  intros name. unfold amazons3.StoreChunk, minio.StatObject, minio.GetObject.
  fold name. destruct (svc !! amazons3.chunkBucket backend) as [objects|].
  - destruct (objects !! name) as [old|]; [left; eauto|right; split; reflexivity].
  - right. split; reflexivity.
Qed.

(** After a [StoreChunk] that returned no error the blob is there. *)
Lemma StoreChunk_present (shasum : string) (part totalParts : N)
    (data : bytes) (svc svc' : minio.Service) (n : N) :
  amazons3.StoreChunk backend shasum part totalParts data svc = ((n, None), svc') ->
  exists blob,
    minio.GetObject (amazons3.chunkBucket backend)
      (amazons3.fileName shasum part totalParts) svc' = (blob, None).
Proof.
  intros Hstore.
  destruct (StoreChunk_cases shasum part totalParts data svc)
    as [(old & Hold & Heq)|[Hmissing Heq]]; rewrite Heq in Hstore.
  - injection Hstore as _ <-. eauto.
  - destruct (minio.PutObject _ _ data svc) as [[i err] svc0] eqn:Hput.
    injection Hstore as _ -> ->. exists data.
    exact (GetObject_PutObject _ _ _ _ _ _ Hput).
Qed.

(** X2.  After a [StoreChunk] that returned no error, [LoadChunk] of the same
    shard succeeds: it returns the blob that was there before the call
    when there was one, and the payload otherwise. *)
Theorem StoreChunk_then_LoadChunk (shasum : string) (part totalParts : N)
    (data : bytes) (svc svc' : minio.Service) (n : N) :
  amazons3.StoreChunk backend shasum part totalParts data svc = ((n, None), svc') ->
  amazons3.LoadChunk backend shasum part totalParts svc'
  = (match amazons3.LoadChunk backend shasum part totalParts svc with
     | (old, None) => old
     | (_, Some _) => data
     end, None).
Proof.
  intros Hstore. unfold amazons3.LoadChunk.
  destruct (StoreChunk_cases shasum part totalParts data svc)
    as [(old & Hold & Heq)|[Hmissing Heq]]; rewrite Heq in Hstore.
  - injection Hstore as _ <-. rewrite Hold. reflexivity.
  - destruct (minio.PutObject _ _ data svc) as [[i err] svc0] eqn:Hput.
    injection Hstore as _ -> ->.
    rewrite (GetObject_PutObject _ _ _ _ _ _ Hput).
    destruct (minio.GetObject _ _ svc) as [old [e|]]; [reflexivity|discriminate].
Qed.

(** X3.  Once a shard is stored, storing it again, with whatever payload,
    returns size 0 and no error and leaves the store as it is. *)
Theorem StoreChunk_again (shasum : string) (part totalParts : N)
    (data data' : bytes) (svc svc' : minio.Service) (n : N) :
  amazons3.StoreChunk backend shasum part totalParts data svc = ((n, None), svc') ->
  amazons3.StoreChunk backend shasum part totalParts data' svc' = ((0%N, None), svc').
Proof.
  intros Hstore. destruct (StoreChunk_present _ _ _ _ _ _ _ Hstore) as [blob Hblob].
  destruct (StoreChunk_cases shasum part totalParts data' svc')
    as [(old & _ & Heq)|[Hmissing _]]; [exact Heq|].
  rewrite Hblob in Hmissing. discriminate.
Qed.

(** X4.  [StoreChunk] touches one blob at most: every other shard, every
    snapshot and the repository metadata load after the call as they did
    before it, whether it succeeded or not. *)
Theorem StoreChunk_frame (shasum : string) (part totalParts : N) (data : bytes)
    (svc : minio.Service) :
  amazons3.chunkBucket backend <> amazons3.snapshotBucket backend ->
  amazons3.chunkBucket backend <> amazons3.repositoryBucket backend ->
  let svc' := snd (amazons3.StoreChunk backend shasum part totalParts data svc) in
  (forall shasum' part' totalParts',
     (shasum', part', totalParts') <> (shasum, part, totalParts) ->
     amazons3.LoadChunk backend shasum' part' totalParts' svc'
     = amazons3.LoadChunk backend shasum' part' totalParts' svc)
  /\ (forall id, amazons3.LoadSnapshot backend id svc'
                 = amazons3.LoadSnapshot backend id svc)
  /\ (forall RepoFilename,
        amazons3.LoadRepository RepoFilename backend svc'
        = amazons3.LoadRepository RepoFilename backend svc).
Proof.
  intros Hsnap Hrepo svc'.
  assert (Hother : forall bucket' object',
            bucket' <> amazons3.chunkBucket backend
            \/ object' <> amazons3.fileName shasum part totalParts ->
            minio.GetObject bucket' object' svc' = minio.GetObject bucket' object' svc).
  { intros bucket' object' Hne. subst svc'.
    destruct (StoreChunk_cases shasum part totalParts data svc)
      as [(old & _ & ->)|[_ ->]]; [reflexivity|].
    rewrite <- (GetObject_PutObject_other _ _ _ _ data svc Hne).
    destruct (minio.PutObject _ _ data svc) as [[i err] svc0]. reflexivity. }
  split; [|split].
  - intros shasum' part' totalParts' Hne. unfold amazons3.LoadChunk.
    apply Hother. right. intros Heq. apply fileName_fields in Heq as (-> & -> & ->).
    congruence.
  - intros id. apply Hother. left. congruence.
  - intros RepoFilename. apply Hother. left. congruence.
Qed.

(** X5.  [SaveSnapshot] either fails and leaves the store as it was, or
    succeeds, and then the snapshot loads as saved (whatever was saved
    under its ID before), every other snapshot loads as before and, the
    buckets being different, so does every shard. *)
Theorem SaveSnapshot_LoadSnapshot (id : string) (data : bytes)
    (svc svc' : minio.Service) (err : option error) :
  amazons3.SaveSnapshot backend id data svc = (err, svc') ->
  (isErr err = true -> svc' = svc)
  /\ (err = None ->
      amazons3.LoadSnapshot backend id svc' = (data, None)
      /\ (forall id', id' <> id ->
            amazons3.LoadSnapshot backend id' svc'
            = amazons3.LoadSnapshot backend id' svc)
      /\ (amazons3.chunkBucket backend <> amazons3.snapshotBucket backend ->
          forall shasum part totalParts,
            amazons3.LoadChunk backend shasum part totalParts svc'
            = amazons3.LoadChunk backend shasum part totalParts svc)).
Proof.
  unfold amazons3.SaveSnapshot, amazons3.LoadSnapshot, amazons3.LoadChunk.
  destruct (minio.PutObject _ id data svc) as [[n e] svc0] eqn:Hput.
  intros [= <- <-]. split.
  - destruct e as [e|]; [|discriminate]. intros _.
    exact (PutObject_failed _ _ _ _ _ _ _ Hput).
  - intros ->. split; [exact (GetObject_PutObject _ _ _ _ _ _ Hput)|].
    replace svc0 with (snd (minio.PutObject (amazons3.snapshotBucket backend) id data svc))
      by (rewrite Hput; reflexivity).
    split.
    + intros id' Hne. apply GetObject_PutObject_other. auto.
    + intros Hbuckets shasum part totalParts. apply GetObject_PutObject_other. auto.
Qed.

(** X6.  The chunk index is a blob of the chunks bucket.  Saved, it loads as
    saved; and when its name has no dot, it never meets the name of a
    shard: saving it leaves every shard as it was, and storing a shard
    leaves it as it was. *)
Theorem ChunkIndex_roundtrip (ChunkIndexFilename : string) (data : bytes)
    (svc svc' : minio.Service) :
  amazons3.SaveChunkIndex ChunkIndexFilename backend data svc = (None, svc') ->
  amazons3.LoadChunkIndex ChunkIndexFilename backend svc' = (data, None)
  /\ (strings.Contains ChunkIndexFilename "." = false ->
      (forall shasum part totalParts,
         amazons3.LoadChunk backend shasum part totalParts svc'
         = amazons3.LoadChunk backend shasum part totalParts svc)
      /\ (forall shasum part totalParts payload,
            amazons3.LoadChunkIndex ChunkIndexFilename backend
              (snd (amazons3.StoreChunk backend shasum part totalParts payload svc'))
            = (data, None))).
Proof.
  unfold amazons3.SaveChunkIndex, amazons3.LoadChunkIndex, amazons3.LoadChunk.
  destruct (minio.PutObject _ ChunkIndexFilename data svc) as [[n e] svc0] eqn:Hput.
  intros [= -> <-].
  pose proof (GetObject_PutObject _ _ _ _ _ _ Hput) as Hget.
  split; [exact Hget|]. intros Hdot.
  assert (Hname : forall shasum part totalParts,
            amazons3.fileName shasum part totalParts <> ChunkIndexFilename).
  { intros shasum part totalParts Heq.
    pose proof (fileName_dot shasum part totalParts) as H. rewrite Heq in H. congruence. }
  split.
  - intros shasum part totalParts.
    replace svc0
      with (snd (minio.PutObject (amazons3.chunkBucket backend) ChunkIndexFilename data svc))
      by (rewrite Hput; reflexivity).
    apply GetObject_PutObject_other. right. apply Hname.
  - intros shasum part totalParts payload. rewrite <- Hget.
    destruct (StoreChunk_cases shasum part totalParts payload svc0)
      as [(old & _ & ->)|[_ ->]]; [reflexivity|].
    rewrite <- (GetObject_PutObject_other (amazons3.chunkBucket backend)
                  (amazons3.fileName shasum part totalParts)
                  (amazons3.chunkBucket backend) ChunkIndexFilename payload svc0)
      by (right; intros Heq; exact (Hname _ _ _ (eq_sym Heq))).
    destruct (minio.PutObject _ _ payload svc0) as [[i err] svc1]. reflexivity.
Qed.

(** X7.  The repository metadata, saved, loads as saved, and saving it leaves
    the snapshots and the chunks bucket as they were when the three
    buckets differ. *)
Theorem Repository_roundtrip (RepoFilename : string) (data : bytes)
    (svc svc' : minio.Service) :
  amazons3.SaveRepository RepoFilename backend data svc = (None, svc') ->
  amazons3.LoadRepository RepoFilename backend svc' = (data, None)
  /\ (amazons3.snapshotBucket backend <> amazons3.repositoryBucket backend ->
      forall id, amazons3.LoadSnapshot backend id svc'
                 = amazons3.LoadSnapshot backend id svc)
  /\ (amazons3.chunkBucket backend <> amazons3.repositoryBucket backend ->
      (forall shasum part totalParts,
         amazons3.LoadChunk backend shasum part totalParts svc'
         = amazons3.LoadChunk backend shasum part totalParts svc)
      /\ (forall ChunkIndexFilename,
            amazons3.LoadChunkIndex ChunkIndexFilename backend svc'
            = amazons3.LoadChunkIndex ChunkIndexFilename backend svc)).
Proof.
  unfold amazons3.SaveRepository, amazons3.LoadRepository, amazons3.LoadSnapshot,
    amazons3.LoadChunk, amazons3.LoadChunkIndex.
  destruct (minio.PutObject _ RepoFilename data svc) as [[n e] svc0] eqn:Hput.
  intros [= -> <-]. split; [exact (GetObject_PutObject _ _ _ _ _ _ Hput)|].
  replace svc0
    with (snd (minio.PutObject (amazons3.repositoryBucket backend) RepoFilename data svc))
    by (rewrite Hput; reflexivity).
  split; [|split]; intros; apply GetObject_PutObject_other; auto.
Qed.

End s3_store.

(** ** Initialising a repository *)

Section s3_init.

Variable backend : amazons3.StorageAmazonS3.

Local Abbreviation chunks := (amazons3.chunkBucket backend).
Local Abbreviation snapshots := (amazons3.snapshotBucket backend).
Local Abbreviation repository := (amazons3.repositoryBucket backend).

(** X8.  A repository is initialised once: after an [InitRepository] that
    succeeded, the next one returns [ErrRepositoryExists] and changes
    nothing. *)
Theorem InitRepository_again (svc svc' : minio.Service) :
  amazons3.InitRepository backend svc = (None, svc') ->
  amazons3.InitRepository backend svc' = (Some ErrRepositoryExists, svc').
Proof.
  rewrite !InitRepository_steps.
  destruct (svc !! chunks); [discriminate|].
  destruct (<[chunks:=∅]> svc !! snapshots) eqn:Hs; [discriminate|].
  destruct (<[snapshots:=∅]> (<[chunks:=∅]> svc) !! repository) eqn:Hr; [discriminate|].
  intros [= <-].
  apply lookup_insert_None in Hs as [_ Hcs].
  apply lookup_insert_None in Hr as [Hr Hsr].
  apply lookup_insert_None in Hr as [_ Hcr].
  rewrite lookup_insert_ne, lookup_insert_ne, lookup_insert_eq by congruence.
  reflexivity.
Qed.

(** X9.  [InitRepository] is not undone when it fails: the buckets it made
    before it met an existing one stay.  With the snapshots bucket there
    it leaves a new chunks bucket behind, with the repository bucket
    there a new chunks and a new snapshots bucket. *)
Theorem InitRepository_partial (svc : minio.Service) :
  svc !! chunks = None ->
  (is_Some (svc !! snapshots) ->
     amazons3.InitRepository backend svc
     = (Some ErrRepositoryExists, <[chunks := ∅]> svc))
  /\ (svc !! snapshots = None -> chunks <> snapshots ->
      is_Some (svc !! repository) ->
      amazons3.InitRepository backend svc
      = (Some ErrRepositoryExists, <[snapshots := ∅]> (<[chunks := ∅]> svc))).
Proof.
  intros Hc. rewrite InitRepository_steps, Hc. split.
  - intros [objects Hs].
    assert (chunks <> snapshots) by congruence.
    rewrite lookup_insert_ne, Hs by assumption. reflexivity.
  - intros Hs Hcs [objects Hr].
    assert (chunks <> repository) by congruence.
    assert (snapshots <> repository) by congruence.
    rewrite lookup_insert_ne, Hs by assumption.
    rewrite lookup_insert_ne, lookup_insert_ne, Hr by assumption. reflexivity.
Qed.

End s3_init.

Section s3_new.

Variable minio_New :
  string -> string -> string -> bool -> option minio.Client * option error.

(** X11.  A backend that [NewBackend] returned initialises every store that has
    none of its three buckets, and the repository is then empty and ready:
    no shard is found, and saving a snapshot or storing a shard
    succeeds. *)
Theorem NewBackend_InitRepository_ready (URL : url.URL)
    (backend : amazons3.StorageAmazonS3) (svc : minio.Service) :
  amazons3.NewBackend minio_New URL = Return (backend, None) ->
  svc !! amazons3.chunkBucket backend = None ->
  svc !! amazons3.snapshotBucket backend = None ->
  svc !! amazons3.repositoryBucket backend = None ->
  exists svc',
    amazons3.InitRepository backend svc = (None, svc')
    /\ (forall shasum part totalParts,
          amazons3.LoadChunk backend shasum part totalParts svc'
          = ([], Some minio.NoSuchKey))
    /\ (forall id data, fst (amazons3.SaveSnapshot backend id data svc') = None)
    /\ (forall shasum part totalParts data,
          snd (fst (amazons3.StoreChunk backend shasum part totalParts data svc')) = None).
Proof.
  intros Hnew Hc Hs Hr.
  destruct (NewBackend_buckets_differ minio_New URL backend Hnew) as (Hcs & Hcr & Hsr).
  eexists. split.
  - rewrite InitRepository_steps, Hc.
    rewrite lookup_insert_ne, Hs by assumption.
    rewrite lookup_insert_ne, lookup_insert_ne, Hr by assumption. reflexivity.
  - split; [|split].
    + intros shasum part totalParts. unfold amazons3.LoadChunk, minio.GetObject.
      rewrite lookup_insert_ne, lookup_insert_ne, lookup_insert_eq by congruence.
      rewrite lookup_empty. reflexivity.
    + intros id data. unfold amazons3.SaveSnapshot, minio.PutObject.
      rewrite lookup_insert_ne, lookup_insert_eq by congruence. reflexivity.
    + intros shasum part totalParts data.
      unfold amazons3.StoreChunk, minio.StatObject, minio.PutObject.
      rewrite lookup_insert_ne, lookup_insert_ne, lookup_insert_eq by congruence.
      rewrite lookup_empty. reflexivity.
Qed.

Lemma Split_length (s : string) (c : ascii) :
  length (strings.Split s c) = Datatypes.S (strings.Count s c).
Proof.
  induction s as [|a s IH]; [reflexivity|]. cbn [strings.Split strings.Count].
  destruct (Ascii.eqb a c); cbn [length]; [rewrite IH; reflexivity|].
  destruct (strings.Split s c); cbn [length] in *; lia.
Qed.

(** X12.  On the schemes [s3] and [s3s], [NewBackend] checks the user name, then
    the password, then the path, which must have exactly two slashes, and
    only then constructs the client; on each failure it returns the empty
    backend with the error of the first check that failed. *)
Theorem NewBackend_validation (URL : url.URL) :
  url.Scheme URL = "s3" \/ url.Scheme URL = "s3s" ->
  (url.Username (url.User URL) = "" ->
     amazons3.NewBackend minio_New URL
     = Return (amazons3.zero, Some ErrInvalidUsername))
  /\ (url.Username (url.User URL) <> "" ->
      snd (url.Password (url.User URL)) = false ->
      amazons3.NewBackend minio_New URL
      = Return (amazons3.zero, Some ErrInvalidPassword))
  /\ (url.Username (url.User URL) <> "" ->
      snd (url.Password (url.User URL)) = true ->
      strings.Count (url.Path URL) "/" <> 2 ->
      amazons3.NewBackend minio_New URL
      = Return (amazons3.zero, Some ErrInvalidRepositoryURL))
  /\ (url.Username (url.User URL) <> "" ->
      snd (url.Password (url.User URL)) = true ->
      strings.Count (url.Path URL) "/" = 2 ->
      forall cl e,
        minio_New (url.Host URL) (url.Username (url.User URL))
          (fst (url.Password (url.User URL)))
          (String.eqb (url.Scheme URL) "s3s") = (cl, Some e) ->
        amazons3.NewBackend minio_New URL = Return (amazons3.zero, Some e)).
Proof.
  intros Hscheme. unfold amazons3.NewBackend.
  assert (Hssl :
    (if String.eqb (url.Scheme URL) "s3" then Return false
     else if String.eqb (url.Scheme URL) "s3s" then Return true
     else Panic "Invalid s3 url scheme")
    = @Return bool (String.eqb (url.Scheme URL) "s3s")).
  { destruct Hscheme as [-> | ->]; reflexivity. }
  cbv zeta. rewrite Hssl. clear Hssl.
  pose proof (Split_length (url.Path URL) "/") as Hlen.
  split; [|split; [|split]].
  - intros ->. reflexivity.
  - intros Huser Hpw. apply String.eqb_neq in Huser. rewrite Huser.
    destruct (url.Password (url.User URL)) as [pw pwexist]. cbn in Hpw. subst pwexist.
    reflexivity.
  - intros Huser Hpw Hcount. apply String.eqb_neq in Huser. rewrite Huser.
    destruct (url.Password (url.User URL)) as [pw pwexist]. cbn in Hpw. subst pwexist.
    cbn [negb].
    destruct (strings.Split (url.Path URL) "/") as [|? [|? [|? [|? ?]]]];
      try reflexivity.
    cbn [length] in Hlen. lia.
  - intros Huser Hpw Hcount cl e Hdial. apply String.eqb_neq in Huser. rewrite Huser.
    destruct (url.Password (url.User URL)) as [pw pwexist]. cbn in Hpw, Hdial.
    subst pwexist. cbn [negb].
    destruct (strings.Split (url.Path URL) "/") as [|? [|? [|? [|? ?]]]];
      cbn [length] in Hlen; try lia.
    rewrite Hdial. reflexivity.
Qed.

Lemma Split_fields (s : string) (c : ascii) :
  Forall (fun field => strings.Contains field c = false) (strings.Split s c).
Proof.
  induction s as [|a s IH]; [repeat constructor|]. cbn [strings.Split].
  destruct (Ascii.eqb a c) eqn:Ha; [constructor; [reflexivity|exact IH]|].
  destruct (strings.Split s c) as [|field fields]; [repeat constructor; cbn; rewrite Ha; reflexivity|].
  inversion IH as [|? ? Hfield Hfields]; subst.
  constructor; [cbn; rewrite Ha, Hfield; reflexivity|assumption].
Qed.

(** X13.  A backend that [NewBackend] returned without an error keeps the URL,
    takes its region from the second element of the path and names its
    buckets after the third; the path has exactly three elements, and
    what stands before its first slash is not looked at. *)
Theorem NewBackend_success (URL : url.URL) (backend : amazons3.StorageAmazonS3) :
  amazons3.NewBackend minio_New URL = Return (backend, None) ->
  exists first prefix,
    url.Path URL = first +:+ "/" +:+ amazons3.region backend +:+ "/" +:+ prefix
    /\ strings.Contains first "/" = false
    /\ strings.Contains (amazons3.region backend) "/" = false
    /\ strings.Contains prefix "/" = false
    /\ amazons3.url backend = URL
    /\ amazons3.chunkBucket backend = prefix +:+ "-chunks"
    /\ amazons3.snapshotBucket backend = prefix +:+ "-snapshots"
    /\ amazons3.repositoryBucket backend = prefix +:+ "-repository"
    /\ url.Username (url.User URL) <> ""
    /\ snd (url.Password (url.User URL)) = true.
Proof.
  unfold amazons3.NewBackend.
  destruct (String.eqb (url.Scheme URL) "s3");
    [|destruct (String.eqb (url.Scheme URL) "s3s"); [|discriminate]].
  all: destruct (String.eqb_spec (url.Username (url.User URL)) "") as [|Huser];
    [discriminate|].
  all: destruct (url.Password (url.User URL)) as [pw [|]]; cbn [negb]; [|discriminate].
  all: pose proof (Join_Split (url.Path URL) "/") as Hjoin.
  all: pose proof (Split_fields (url.Path URL) "/") as Hfields.
  all: destruct (strings.Split (url.Path URL) "/") as [|first [|region1 [|prefix2 [|? ?]]]];
    try discriminate.
  all: destruct (minio_New _ _ _ _) as [cl [e|]]; cbn [isErr]; [discriminate|].
  all: intros [= <-]; cbn.
  all: exists first, prefix2.
  all: inversion Hfields as [|? ? H1 Hrest]; subst.
  all: inversion Hrest as [|? ? H2 Hrest']; subst.
  all: inversion Hrest' as [|? ? H3 _]; subst.
  all: repeat split; try assumption; try reflexivity.
  all: rewrite <- Hjoin; reflexivity.
Qed.

(** X14.  [NewBackend] returns exactly on the schemes that [Protocols] lists,
    and panics on every other one. *)
Theorem Protocols_NewBackend (URL : url.URL) (backend : amazons3.StorageAmazonS3) :
  (exists r, amazons3.NewBackend minio_New URL = Return r)
  <-> In (url.Scheme URL) (amazons3.Protocols backend).
Proof.
  unfold amazons3.Protocols, amazons3.NewBackend. cbn [In]. split.
  - intros [r Hr].
    destruct (String.eqb_spec (url.Scheme URL) "s3") as [->|_]; [auto|].
    destruct (String.eqb_spec (url.Scheme URL) "s3s") as [->|_]; [auto|].
    discriminate.
  - intros [<-|[<-|[]]].
    + change (String.eqb "s3" "s3") with true. cbv iota zeta.
      destruct (String.eqb _ ""); [eauto|].
      destruct (url.Password (url.User URL)) as [pw [|]]; cbn [negb]; [|eauto].
      destruct (strings.Split (url.Path URL) "/") as [|? [|? [|? [|? ?]]]]; eauto.
      destruct (minio_New _ _ _ _) as [cl [e|]]; cbn [isErr]; eauto.
    + change (String.eqb "s3s" "s3") with false.
      change (String.eqb "s3s" "s3s") with true. cbv iota zeta.
      destruct (String.eqb _ ""); [eauto|].
      destruct (url.Password (url.User URL)) as [pw [|]]; cbn [negb]; [|eauto].
      destruct (strings.Split (url.Path URL) "/") as [|? [|? [|? [|? ?]]]]; eauto.
      destruct (minio_New _ _ _ _) as [cl [e|]]; cbn [isErr]; eauto.
Qed.

End s3_new.

(** ** Saving and opening snapshots *)

Section persistence_more.

Context {T : Transforms} {S : Type} {B : BackendManager S}.

(** X15.  A [Save] that returns an error has written nothing it could have
    kept from writing: marshalling, compression and encryption fail before
    the backend is called, so the storage is as it was unless the error is
    the one [SaveSnapshot] returned; and with a backend whose failed
    [SaveSnapshot] leaves the storage as it was, as that of the Amazon S3
    backend does, a failed [Save] leaves the storage as it was. *)
Theorem Save_failure (s : Snapshot.t) (r : Repository.t) (st st' : S) (e : error) :
  Save s r st = (Some e, st') ->
  (st' = st \/ exists c, SaveSnapshot (Snapshot.ID s) c st = (Some e, st'))
  /\ ((forall id b st0 e0 st1, SaveSnapshot id b st0 = (Some e0, st1) -> st1 = st0) ->
      st' = st).
Proof.
  rewrite Save_spec. unfold spec_Save.
  destruct (Marshal s) as [j [e1|]]; [intros [= _ <-]; auto|].
  destruct (spec_compress _ j) as [z [e2|]]; [intros [= _ <-]; auto|].
  destruct (Encrypt z _) as [c [e3|]]; [intros [= _ <-]; auto|].
  intros Hsave. split; [right; eauto|]. intros Hfailed. exact (Hfailed _ _ _ _ _ Hsave).
Qed.


End persistence_more.

(** ** The backup pipeline, further *)

Section pipeline_more.

Context {S : Type} {B : BackendManager S} {P : Pipeline}.

Variables (cwd : string) (repository : Repository.t)
          (compress encrypt : N) (parityParts : N).

Local Abbreviation consume := (consume cwd repository compress encrypt parityParts).
Local Abbreviation Add := (Add cwd repository compress encrypt parityParts).
Local Abbreviation received := (received cwd).
Local Abbreviation started := (started cwd).










(** X18.  The results that follow a result with an error are never looked at:
    the run is the one without them. *)
Theorem consume_stops_at_error (pre rest : list ArchiveResult.t)
    (bad : ArchiveResult.t) :
  isErr (ArchiveResult.Error bad) = true ->
  forall (dataParts : N) (snapshot0 : Snapshot.t) (chunkIndex : ChunkIndex) (st : S),
    consume (pre ++ bad :: rest) dataParts snapshot0 chunkIndex st
    = consume (pre ++ [bad]) dataParts snapshot0 chunkIndex st.
Proof.
  intros Hbad. induction pre as [|result pre IH];
    intros dataParts snapshot0 chunkIndex st; cbn [app knoxite.consume].
  - destruct (ArchiveResult.Error bad); [reflexivity|discriminate].
  - destruct (ArchiveResult.Error result); [reflexivity|].
    destruct (isSpecialPath _); [apply IH|]. f_equal.
    destruct (Archive.Type_ _); [apply IH| |apply IH].
    destruct (chunkFile _ _ _ _ _ _) as [chunkchan [e|]].
    { destruct (IsNotExist e); [apply IH|reflexivity]. }
    destruct (storeChunks _ _ _ _ _ _) as [ps ok a' s' t'].
    cbn [completed sent stored_archive stored_snapshot stored_storage].
    destruct ok; [|reflexivity]. rewrite IH. reflexivity.
Qed.





(** X21.  When the loop over the chunks stops early, the event it has sent last
    is an error event.  It carries the error of [StoreChunk] when
    [StoreChunk] failed; when the chunker delivered the error, it carries
    the value of [err], the variable of [chunkFile], and not the error
    delivered. *)
Theorem storeChunks_aborted (chunkchan : list ChunkResult.t) (err : option error) :
  forall (archive : Archive.t) (p : Progress.t) (snapshot0 : Snapshot.t) (st : S),
    let r := storeChunks chunkchan err archive p snapshot0 st in
    completed r = false ->
    exists before last,
      sent r = (before ++ [newProgressError last])%list
      /\ ((last = err
           /\ exists cd, In cd chunkchan /\ isErr (ChunkResult.Error cd) = true)
          \/ exists cd st0 n e st1,
               In cd chunkchan
               /\ StoreChunk (ChunkResult.Chunk cd) st0 = ((n, Some e), st1)
               /\ last = Some e).
Proof.
  induction chunkchan as [|cd chunkchan IH]; intros archive p snapshot0 st;
    cbv zeta; cbn [storeChunks]; [discriminate|].
  destruct (isErr (ChunkResult.Error cd)) eqn:Hcd.
  { intros _. exists [], err. split; [reflexivity|]. left. split; [reflexivity|].
    exists cd. split; [left; reflexivity|exact Hcd]. }
  destruct (StoreChunk (ChunkResult.Chunk cd) st) as [[n err'] st'] eqn:Hstore.
  destruct err' as [e|]; cbn [isErr].
  { intros _. exists [], (Some e). split; [reflexivity|]. right.
    exists cd, st, n, e, st'. split; [left; reflexivity|]. split; [exact Hstore|reflexivity]. }
  cbn [completed sent]. intros Hc.
  match type of Hc with
  | completed (storeChunks chunkchan err ?a ?q ?s ?t) = false =>
      destruct (IH a q s t Hc) as (before & last & Hsent & Hlast)
  end.
  rewrite Hsent. eexists (_ :: before), last. split; [reflexivity|].
  destruct Hlast as [[-> (cd' & Hin & Hbad)]|(cd' & st0 & n' & e & st1 & Hin & Hs & ->)].
  - left. split; [reflexivity|]. exists cd'. split; [right; exact Hin|exact Hbad].
  - right. exists cd', st0, n', e, st1. split; [right; exact Hin|]. split; auto.
Qed.

End pipeline_more.

Section pipeline_invariants.

Context {S : Type} {B : BackendManager S} {P : Pipeline}.

Variables (cwd : string) (repository : Repository.t)
          (compress encrypt : N) (parityParts : N).

Local Abbreviation consume := (consume cwd repository compress encrypt parityParts).
Local Abbreviation Add := (Add cwd repository compress encrypt parityParts).

(** What of a snapshot no stage of the pipeline changes: its ID, date and
    description, and the presence of the archives it holds. *)
Local Abbreviation extends s0 s1 :=
  (Snapshot.ID s1 = Snapshot.ID s0
   /\ Snapshot.Date s1 = Snapshot.Date s0
   /\ Snapshot.Description s1 = Snapshot.Description s0
   /\ forall path, is_Some (Snapshot.Archives s0 !! path) ->
                   is_Some (Snapshot.Archives s1 !! path)).

Lemma extends_refl (s : Snapshot.t) : extends s s.
Proof. repeat split; auto. Qed.

Lemma extends_trans (s0 s1 s2 : Snapshot.t) :
  extends s0 s1 -> extends s1 s2 -> extends s0 s2.
Proof.
  intros (Hid & Hdate & Hdesc & Harch) (Hid' & Hdate' & Hdesc' & Harch').
  repeat split; try congruence. auto.
Qed.

Lemma extends_AddArchive (s : Snapshot.t) (archive : Archive.t) :
  extends s (AddArchive s archive).
Proof.
  repeat split. intros path Hin. cbn. rewrite lookup_insert.
  case_decide; [eauto|exact Hin].
Qed.

Lemma storeChunks_extends (chunkchan : list ChunkResult.t) (err : option error) :
  forall (archive : Archive.t) (p : Progress.t) (snapshot0 : Snapshot.t) (st : S),
    extends snapshot0 (stored_snapshot (storeChunks chunkchan err archive p snapshot0 st)).
Proof.
  induction chunkchan as [|cd chunkchan IH]; intros archive p snapshot0 st;
    cbn [storeChunks]; [apply extends_refl|].
  destruct (isErr (ChunkResult.Error cd)); [apply extends_refl|].
  destruct (StoreChunk (ChunkResult.Chunk cd) st) as [[n err'] st'].
  destruct (isErr err'); [apply extends_refl|].
  cbn [stored_snapshot]. cbv zeta.
  match goal with
  | |- context [storeChunks chunkchan err ?a ?q ?s ?t] =>
      apply (extends_trans _ s); [repeat split; auto|apply IH]
  end.
Qed.

Lemma consume_extends (fwd : list ArchiveResult.t) :
  forall (dataParts : N) (snapshot0 : Snapshot.t) (chunkIndex : ChunkIndex) (st : S),
    extends snapshot0 (snapshot (consume fwd dataParts snapshot0 chunkIndex st)).
Proof.
  induction fwd as [|result fwd IH]; intros dataParts snapshot0 chunkIndex st;
    cbn [knoxite.consume]; [apply extends_refl|].
  destruct (ArchiveResult.Error result); [apply extends_refl|].
  destruct (isSpecialPath _); [apply IH|]. rewrite sending_snapshot.
  destruct (Archive.Type_ _).
  - eapply extends_trans; [apply extends_AddArchive|apply IH].
  - destruct (chunkFile _ _ _ _ _ _) as [chunkchan [e|]].
    { destruct (IsNotExist e); [apply IH|apply extends_refl]. }
    match goal with
    | |- context [storeChunks chunkchan None ?a ?q ?s ?t] =>
        pose proof (storeChunks_extends chunkchan None a q s t) as Hstored;
        destruct (storeChunks chunkchan None a q s t) as [ps ok a' s' t']
    end.
    cbn [completed sent stored_archive stored_snapshot stored_storage] in *.
    destruct ok; rewrite fold_sending_snapshot; [|exact Hstored].
    eapply extends_trans; [exact Hstored|].
    eapply extends_trans; [apply extends_AddArchive|apply IH].
  - eapply extends_trans; [apply extends_AddArchive|apply IH].
Qed.

Lemma forward_extends (c : list ArchiveResult.t) (snapshot0 : Snapshot.t) :
  extends snapshot0 (snd (forward cwd c snapshot0)).
Proof.
  revert snapshot0. induction c as [|result c IH]; intros snapshot0;
    [apply extends_refl|].
  cbn [forward]. destruct (ArchiveResult.Error result).
  - specialize (IH snapshot0). destruct (forward cwd c snapshot0). exact IH.
  - destruct (isSpecialPath _); [apply IH|].
    match goal with
    | |- context [forward cwd c ?s] =>
        specialize (IH s); destruct (forward cwd c s) as [out s1]
    end.
    cbn [snd] in *. eapply extends_trans; [|exact IH]. repeat split; auto.
Qed.

Lemma gatherTargetInformation_extends (paths excludes : list string)
    (snapshot0 : Snapshot.t) :
  extends snapshot0 (snd (gatherTargetInformation cwd paths excludes snapshot0)).
Proof.
  revert snapshot0. induction paths as [|path paths IH]; intros snapshot0;
    [apply extends_refl|].
  cbn [gatherTargetInformation].
  pose proof (forward_extends (findFiles path excludes) snapshot0) as H1.
  destruct (forward cwd (findFiles path excludes) snapshot0) as [out1 snapshot1].
  specialize (IH snapshot1).
  destruct (gatherTargetInformation cwd paths excludes snapshot1) as [out2 snapshot2].
  cbn [snd] in *. eapply extends_trans; eassumption.
Qed.

(** X22.  [Add] keeps the identity of the snapshot and never drops an archive:
    its ID, date and description are as before, and every path that was
    filed before the run is filed after it, however the run ends. *)
Theorem Add_keeps_identity (paths excludes : list string) (chunkIndex : ChunkIndex)
    (dataParts : N) (snapshot0 : Snapshot.t) (st : S) :
  let snapshot1 := snapshot (Add paths excludes chunkIndex dataParts snapshot0 st) in
  Snapshot.ID snapshot1 = Snapshot.ID snapshot0
  /\ Snapshot.Date snapshot1 = Snapshot.Date snapshot0
  /\ Snapshot.Description snapshot1 = Snapshot.Description snapshot0
  /\ forall path, is_Some (Snapshot.Archives snapshot0 !! path) ->
                  is_Some (Snapshot.Archives snapshot1 !! path).
Proof.
  cbv zeta. unfold knoxite.Add.
  pose proof (gatherTargetInformation_extends paths excludes snapshot0) as Hg.
  destruct (gatherTargetInformation cwd paths excludes snapshot0) as [fwd snapshot1].
  cbn [snd] in Hg. eapply extends_trans; [exact Hg|apply consume_extends].
Qed.

Lemma forwardedSize_app (out1 out2 : list ArchiveResult.t) :
  forwardedSize (out1 ++ out2) = (forwardedSize out1 + forwardedSize out2)%N.
Proof.
  induction out1 as [|r out1 IH]; [reflexivity|]. cbn [app forwardedSize fold_right].
  fold (forwardedSize (out1 ++ out2)). fold (forwardedSize out1). rewrite IH.
  destruct (ArchiveResult.Error r); lia.
Qed.

(** What the loop over one traversal passes on. *)
Lemma forward_forwards (c : list ArchiveResult.t) :
  forall snapshot0 : Snapshot.t,
    let out := fst (forward cwd c snapshot0) in
    let snapshot1 := snd (forward cwd c snapshot0) in
    List.filter (fun r => isErr (ArchiveResult.Error r)) out
    = List.filter (fun r => isErr (ArchiveResult.Error r)) c
    /\ Forall (fun r => ArchiveResult.Error r = None ->
                        isSpecialPath (Archive.Path (ArchiveResult.Archive r)) = false)
         out
    /\ ((Stats.Size (Snapshot.Stats snapshot0) < uint64_modulus)%N ->
        Stats.Size (Snapshot.Stats snapshot1)
        = ((Stats.Size (Snapshot.Stats snapshot0) + forwardedSize out)
             mod uint64_modulus)%N)
    /\ Stats.Transferred (Snapshot.Stats snapshot1)
       = Stats.Transferred (Snapshot.Stats snapshot0)
    /\ Stats.StorageSize (Snapshot.Stats snapshot1)
       = Stats.StorageSize (Snapshot.Stats snapshot0).
Proof.
  induction c as [|result c IH]; intros snapshot0; cbv zeta.
  { cbn. repeat split; [constructor|]. intros Hlt.
    rewrite N.add_0_r, N.mod_small by exact Hlt. reflexivity. }
  cbn [forward List.filter]. destruct (ArchiveResult.Error result) as [e|] eqn:Herr.
  - specialize (IH snapshot0). cbv zeta in IH.
    destruct (forward cwd c snapshot0) as [out snapshot1].
    cbn [fst snd] in *. destruct IH as (Hf & Hs & Hsize & Ht & Hst).
    cbn [List.filter isErr]. rewrite Herr. cbn [isErr].
    repeat split; [f_equal; exact Hf|constructor; [congruence|exact Hs]| |exact Ht|exact Hst].
    intros Hlt. unfold forwardedSize. cbn [fold_right]. rewrite Herr.
    apply Hsize, Hlt.
  - cbn [isErr]. destruct (isSpecialPath _) eqn:Hspecial; [apply IH|].
    match goal with
    | |- context [forward cwd c ?s] =>
        specialize (IH s); cbv zeta in IH; destruct (forward cwd c s) as [out snapshot1]
    end.
    cbn [fst snd] in *. destruct IH as (Hf & Hs & Hsize & Ht & Hst).
    cbn [List.filter ArchiveResult.Error isErr].
    repeat split; [exact Hf|constructor; [intros _; exact Hspecial|exact Hs]|
                   |exact Ht|exact Hst].
    intros Hlt. rewrite Hsize.
    + cbn [Snapshot.withStats Snapshot.Stats Stats.Size]. unfold add64, forwardedSize.
      cbn [fold_right ArchiveResult.Error ArchiveResult.Archive Archive.withPath
           Archive.Size].
      rewrite N.Div0.add_mod_idemp_l. f_equal. lia.
    + cbn [Snapshot.withStats Snapshot.Stats Stats.Size]. unfold add64.
      apply N.mod_lt. discriminate.
Qed.

(** What the discovery stage sends, listed in the order of discovery. *)
Lemma gatherTargetInformation_sent (paths excludes : list string)
    (snapshot0 : Snapshot.t) :
  let found := flat_map (fun path => findFiles path excludes) paths in
  let out := fst (gatherTargetInformation cwd paths excludes snapshot0) in
  let snapshot1 := snd (gatherTargetInformation cwd paths excludes snapshot0) in
  List.filter (fun r => isErr (ArchiveResult.Error r)) out
  = List.filter (fun r => isErr (ArchiveResult.Error r)) found
  /\ Forall (fun r => ArchiveResult.Error r = None ->
                      isSpecialPath (Archive.Path (ArchiveResult.Archive r)) = false)
       out
  /\ ((Stats.Size (Snapshot.Stats snapshot0) < uint64_modulus)%N ->
      Stats.Size (Snapshot.Stats snapshot1)
      = ((Stats.Size (Snapshot.Stats snapshot0) + forwardedSize out)
           mod uint64_modulus)%N)
  /\ Stats.Transferred (Snapshot.Stats snapshot1)
     = Stats.Transferred (Snapshot.Stats snapshot0)
  /\ Stats.StorageSize (Snapshot.Stats snapshot1)
     = Stats.StorageSize (Snapshot.Stats snapshot0).
Proof.
  revert snapshot0. induction paths as [|path paths IH]; intros snapshot0; cbv zeta.
  { cbn. repeat split; [constructor|]. intros Hlt.
    rewrite N.add_0_r, N.mod_small by exact Hlt. reflexivity. }
  cbn [gatherTargetInformation flat_map].
  pose proof (forward_forwards (findFiles path excludes) snapshot0) as H1.
  cbv zeta in H1.
  destruct (forward cwd (findFiles path excludes) snapshot0) as [out1 snapshot1].
  specialize (IH snapshot1). cbv zeta in IH.
  destruct (gatherTargetInformation cwd paths excludes snapshot1) as [out2 snapshot2].
  cbn [fst snd] in *.
  destruct H1 as (Hf1 & Hs1 & Hsize1 & Ht1 & Hst1).
  destruct IH as (Hf2 & Hs2 & Hsize2 & Ht2 & Hst2).
  repeat split.
  - rewrite !List.filter_app, Hf1, Hf2. reflexivity.
  - apply Forall_app. split; assumption.
  - intros Hlt. rewrite Hsize2, (Hsize1 Hlt), forwardedSize_app.
    + rewrite N.Div0.add_mod_idemp_l. f_equal. lia.
    + rewrite (Hsize1 Hlt). apply N.mod_lt. discriminate.
  - congruence.
  - congruence.
Qed.

Lemma filter_Permutation_list {A : Type} (f : A -> bool) (l l' : list A) :
  l ≡ₚ l' -> List.filter f l ≡ₚ List.filter f l'.
Proof.
  induction 1 as [|x l l' _ IH|x y l|l l' l'' _ IH1 _ IH2]; cbn [List.filter].
  - constructor.
  - destruct (f x); [constructor|]; exact IH.
  - destruct (f x), (f y); try reflexivity. apply perm_swap.
  - etransitivity; eassumption.
Qed.

Lemma forwardedSize_Permutation (out out' : list ArchiveResult.t) :
  out ≡ₚ out' -> forwardedSize out = forwardedSize out'.
Proof.
  unfold forwardedSize.
  induction 1 as [|x l l' _ IH|x y l|l l' l'' _ IH1 _ IH2]; cbn [fold_right].
  - reflexivity.
  - rewrite IH. reflexivity.
  - destruct (ArchiveResult.Error x), (ArchiveResult.Error y); lia.
  - congruence.
Qed.

(** X23.  What the discovery stage passes on and counts, in whatever order
    [out] delivers it.  Results with an error are all passed on, each as
    often as it was found, and do not end the discovery; no entry passed
    on is a device path; and the logical size of the snapshot grows by
    the sizes of the entries passed on, modulo 2^64, while the two other
    counters stay. *)
Theorem gatherTargetInformation_forwards (paths excludes : list string)
    (snapshot0 : Snapshot.t) (fwd : list ArchiveResult.t) :
  let found := flat_map (fun path => findFiles path excludes) paths in
  let snapshot1 := snd (gatherTargetInformation cwd paths excludes snapshot0) in
  delivers cwd paths excludes snapshot0 fwd ->
  List.filter (fun r => isErr (ArchiveResult.Error r)) fwd
  ≡ₚ List.filter (fun r => isErr (ArchiveResult.Error r)) found
  /\ Forall (fun r => ArchiveResult.Error r = None ->
                      isSpecialPath (Archive.Path (ArchiveResult.Archive r)) = false)
       fwd
  /\ ((Stats.Size (Snapshot.Stats snapshot0) < uint64_modulus)%N ->
      Stats.Size (Snapshot.Stats snapshot1)
      = ((Stats.Size (Snapshot.Stats snapshot0) + forwardedSize fwd)
           mod uint64_modulus)%N)
  /\ Stats.Transferred (Snapshot.Stats snapshot1)
     = Stats.Transferred (Snapshot.Stats snapshot0)
  /\ Stats.StorageSize (Snapshot.Stats snapshot1)
     = Stats.StorageSize (Snapshot.Stats snapshot0).
Proof.
  cbv zeta. unfold delivers. intros Hdel.
  destruct (gatherTargetInformation_sent paths excludes snapshot0)
    as (Herrors & Hspecial & Hsize & Ht & Hst).
  split; [|split; [|split; [|split; [exact Ht|exact Hst]]]].
  - rewrite <- Herrors. apply filter_Permutation_list, Hdel.
  - apply List.Forall_forall. intros r Hin.
    rewrite List.Forall_forall in Hspecial. apply Hspecial.
    apply (Permutation_in _ Hdel), Hin.
  - intros Hlt. rewrite (forwardedSize_Permutation _ _ Hdel). apply Hsize, Hlt.
Qed.

End pipeline_invariants.

(** ** Paths, further *)

Section paths_more.

Import filepath.

Local Abbreviation sep := Separator.

Local Abbreviation plain :=
  (fun x : string => x <> "" /\ strings.Contains x sep = false).

Lemma cleanStep_plain (rooted : bool) (out : list string) (elem : string) :
  strings.Contains elem sep = false ->
  Forall plain out ->
  Forall plain (cleanStep rooted out elem).
Proof.
  intros Helem Hout. unfold cleanStep.
  destruct (String.eqb_spec elem "") as [|Hne]; [exact Hout|].
  destruct (String.eqb elem "."); cbn [orb]; [exact Hout|].
  destruct (String.eqb_spec elem "..") as [->|_].
  - destruct out as [|last out']; [destruct rooted; repeat constructor; discriminate|].
    inversion Hout; subst.
    destruct (String.eqb last "..");
      [destruct rooted; [assumption|]; constructor; [split; [discriminate|reflexivity]|assumption]|assumption].
  - constructor; [split; assumption|exact Hout].
Qed.

Lemma fold_cleanStep_plain (rooted : bool) (elems out : list string) :
  Forall (fun x => strings.Contains x sep = false) elems ->
  Forall plain out ->
  Forall plain (fold_left (cleanStep rooted) elems out).
Proof.
  revert out. induction elems as [|elem elems IH]; intros out Helems Hout; [exact Hout|].
  inversion Helems; subst. cbn [fold_left]. apply IH; [assumption|].
  apply cleanStep_plain; assumption.
Qed.

Lemma Join_plain_slashed (l : list string) :
  Forall plain l ->
  strings.Join l "/" = "" \/ slashed (strings.Join l "/") = false.
Proof.
  intros Hl. destruct l as [|x l]; [left; reflexivity|right].
  inversion Hl as [|? ? [Hne Hsep] _]; subst.
  destruct x as [|a x]; [congruence|].
  cbn in Hsep. apply orb_false_iff in Hsep as [Ha _].
  destruct (Join_head a x l) as [rest ->]. exact Ha.
Qed.

(** [Clean] keeps a path rooted or not as it was. *)
Lemma slashed_Clean (p : string) : slashed (Clean p) = slashed p.
Proof.
  unfold Clean. destruct (String.eqb_spec p "") as [->|Hne]; [reflexivity|].
  destruct (slashed p) eqn:Hp; [reflexivity|].
  change ("" +:+ ?s) with s.
  match goal with
  | |- context [strings.Join ?l "/"] =>
      assert (Hl : Forall plain l)
  end.
  { apply Forall_rev, fold_cleanStep_plain; [apply Split_fields|constructor]. }
  destruct (Join_plain_slashed _ Hl) as [-> | Hs]; [reflexivity|].
  destruct (String.eqb _ ""); [reflexivity|exact Hs].
Qed.

Lemma storedPath_mixed_step (cwd path : string) :
  slashed cwd <> slashed path -> normalizePath cwd path = path.
Proof.
  intros Hmixed. unfold normalizePath, Rel.
  destruct (String.eqb_spec (Clean path) (Clean cwd)) as [Heq|_].
  { exfalso. apply Hmixed. rewrite <- (slashed_Clean cwd), <- (slashed_Clean path).
    congruence. }
  assert (Hbase : slashed (if String.eqb (Clean cwd) "." then "" else Clean cwd)
                  = slashed cwd).
  { rewrite <- (slashed_Clean cwd).
    destruct (String.eqb_spec (Clean cwd) ".") as [->|_]; reflexivity. }
  rewrite Hbase, slashed_Clean.
  destruct (slashed cwd), (slashed path); try congruence; reflexivity.
Qed.

(** X24.  A relative path discovered under an absolute working directory, and
    an absolute path discovered under a relative one, are filed as they
    were discovered: [filepath.Rel] has no answer for them. *)
Theorem storedPath_mixed (cwd path : string) :
  slashed cwd <> slashed path ->
  normalizePath cwd path = path /\ storedPath cwd path = path.
Proof.
  intros Hmixed. pose proof (storedPath_mixed_step cwd path Hmixed) as Hnorm.
  split; [exact Hnorm|]. unfold storedPath. rewrite Hnorm. exact Hnorm.
Qed.

Lemma relLoop_base_longer (cs bs : list string) :
  Forall (fun e => properElem e = true) cs -> cs <> [] -> bs <> [] ->
  relLoop (cs ++ bs) cs = (bs, "", []).
Proof.
  intros Hall Hne Hbs. induction cs as [|c cs IH]; [congruence|].
  inversion Hall as [|? ? Hc Hcs]; subst.
  destruct (proper_head _ Hc) as (a & c' & -> & Ha).
  change ((String a c' :: cs) ++ bs)%list with (String a c' :: (cs ++ bs)%list).
  rewrite relLoop_same.
  - destruct cs as [|c2 cs]; [destruct bs; [congruence|reflexivity]|].
    apply IH; [assumption|discriminate].
  - destruct cs, bs; try reflexivity; congruence.
  - destruct cs; reflexivity.
Qed.

(** X25.  The parent of an absolute working directory is filed as [..]: its
    path from the working directory does not begin with [../], so the
    test that keeps paths outside the working directory as discovered
    does not see it. *)
Theorem storedPath_parent (cwd path : string) (cs : list string) (c : string) :
  Clean cwd = absPath (cs ++ [c]) -> Clean path = absPath cs ->
  Forall (fun e => properElem e = true) cs -> properElem c = true ->
  filepath.Rel cwd path = ("..", None) /\ storedPath cwd path = "..".
Proof.
  intros Hcwd Hpath Hcs Hc.
  assert (Hall : Forall (fun e => properElem e = true) (cs ++ [c]))
    by (apply Forall_app; split; [assumption|repeat constructor; assumption]).
  assert (HRel : Rel cwd path = ("..", None)).
  { unfold Rel. rewrite Hcwd, Hpath.
    destruct (String.eqb_spec (absPath cs) (absPath (cs ++ [c]))) as [Heq|_].
    { apply absPath_inj in Heq; [|assumption..].
      rewrite <- (app_nil_r cs) in Heq at 1. apply app_inv_head in Heq. discriminate. }
    change (String.eqb (absPath (cs ++ [c])) ".") with false. cbv iota.
    change (slashed (absPath (cs ++ [c]))) with true.
    change (slashed (absPath cs)) with true. cbn [Bool.eqb negb].
    rewrite (Split_absPath _ Hcs), (Split_absPath _ Hall).
    destruct (proper_head _ Hc) as (a & c' & -> & Ha).
    destruct cs as [|c1 cs].
    - cbn [app]. rewrite relLoop_same by reflexivity. reflexivity.
    - change ((c1 :: cs) ++ [String a c'])%list
        with (c1 :: (cs ++ [String a c'])%list).
      rewrite relLoop_same by (destruct cs; reflexivity).
      change (c1 :: (cs ++ [String a c'])%list)
        with ((c1 :: cs) ++ [String a c'])%list.
      rewrite relLoop_base_longer by (assumption || discriminate). reflexivity. }
  split; [exact HRel|].
  assert (Hnorm : normalizePath cwd path = "..").
  { unfold normalizePath. rewrite HRel. reflexivity. }
  unfold storedPath. rewrite Hnorm.
  apply storedPath_mixed_step. rewrite <- (slashed_Clean cwd), Hcwd. discriminate.
Qed.

(** X26.  The working directory itself, when absolute, is filed as [.]. *)
Theorem storedPath_self (cwd path : string) :
  slashed cwd = true -> Clean path = Clean cwd -> storedPath cwd path = ".".
Proof.
  intros Habs Hsame.
  assert (Hnorm : normalizePath cwd path = ".").
  { unfold normalizePath, Rel. rewrite Hsame, String.eqb_refl. reflexivity. }
  unfold storedPath. rewrite Hnorm.
  apply storedPath_mixed_step. rewrite Habs. discriminate.
Qed.

End paths_more.

(** ** New snapshots and clones *)

Section snapshots_shared.

Import shared.

Lemma length_substring (n : nat) (s : string) :
  n <= String.length s -> String.length (String.substring 0 n s) = n.
Proof.
  revert s. induction n as [|n IH]; intros s Hn.
  - destruct s; reflexivity.
  - destruct s as [|a s]; cbn in Hn; [lia|]. cbn. f_equal. apply IH. lia.
Qed.

Lemma make_fresh (h : Heap) : h !! fst (make h) = None /\ snd (make h) = <[fst (make h) := ∅]> h.
Proof.
  split; [|reflexivity]. cbn. apply not_elem_of_dom. apply is_fresh.
Qed.

(** Allocating a table leaves the snapshots that hold a table as they
    read. *)
Lemma read_insert_fresh (h : Heap) (l : positive) (table : gmap string Archive.t)
    (s : Object.t) :
  h !! l = None ->
  (forall l', Object.Archives s = Some l' -> is_Some (h !! l')) ->
  read (<[l := table]> h) s = read h s.
Proof.
  intros Hl Hs. unfold read. destruct (Object.Archives s) as [l'|]; [|reflexivity].
  destruct (Hs l' eq_refl) as [t Ht].
  rewrite lookup_insert_ne by congruence. reflexivity.
Qed.

(** X27.  [NewSnapshot], given a UUID, returns a snapshot whose ID is the first
    8 bytes of the UUID's string, with the description and the time given,
    no statistics, and an empty table of archives of its own: the table is
    not nil and is one that no snapshot held before, and the snapshots
    there were read as before. *)
Theorem NewSnapshot_fresh (now : Z) (u description : string) (h : Heap) :
  8 <= String.length u ->
  exists s l h',
    NewSnapshot now (u, None) description h = Return ((s, None), h')
    /\ String.length (Object.ID s) = 8
    /\ String.prefix (Object.ID s) u = true
    /\ read h' s = Snapshot.mk (Object.ID s) now description Stats.zero ∅
    /\ Object.Archives s = Some l /\ h !! l = None
    /\ forall s0 : Object.t,
         (forall l', Object.Archives s0 = Some l' -> is_Some (h !! l')) ->
         read h' s0 = read h s0.
Proof.
  intros Hlen. destruct (make_fresh h) as [Hfresh Hh'].
  exists (Object.mk (String.substring 0 8 u) now description Stats.zero
            (Some (fst (make h)))), (fst (make h)), (snd (make h)).
  assert (Hid : String.length (String.substring 0 8 u) = 8)
    by (apply length_substring; exact Hlen).
  split; [|split; [exact Hid|split; [|split; [|split; [reflexivity|split; [exact Hfresh|]]]]]].
  - unfold NewSnapshot. destruct (make h) as [l h0]. cbn [isErr fst snd].
    destruct (Nat.ltb_spec (String.length u) 8); [lia|reflexivity].
  - cbn [Object.ID]. apply String.prefix_correct. rewrite Hid. reflexivity.
  - unfold read. cbn [Object.ID Object.Date Object.Description Object.Stats
                      Object.Archives].
    rewrite Hh', lookup_insert_eq. reflexivity.
  - intros s0 Hs0. rewrite Hh'. apply read_insert_fresh; assumption.
Qed.

(** An archive added through an object is added to the snapshot it reads
    as. *)
Lemma AddArchive_read (s : Object.t) (archive : Archive.t) (h : Heap) (l : positive) :
  Object.Archives s = Some l ->
  exists h', AddArchive s archive h = Return h'
             /\ read h' s = knoxite.AddArchive (read h s) archive.
Proof.
  intros Hl. unfold AddArchive. rewrite Hl. eexists. split; [reflexivity|].
  unfold read, knoxite.AddArchive. rewrite Hl. cbn. rewrite lookup_insert_eq.
  reflexivity.
Qed.

(** X28.  A clone has an ID and a date of its own and the description and
    statistics of the original, but not archives of its own: it holds the
    table of the original.  An archive added to the clone is thereby added
    to the original as well. *)
Theorem Clone_shares_archives (now : Z) (u : string) (original clone : Object.t)
    (h h' : Heap) (l : positive) :
  Clone now (u, None) original h = Return ((clone, None), h') ->
  Object.Archives original = Some l -> is_Some (h !! l) ->
  read h' original = read h original
  /\ read h' clone
     = Snapshot.mk (String.substring 0 8 u) now
         (Snapshot.Description (read h original)) (Snapshot.Stats (read h original))
         (Snapshot.Archives (read h original))
  /\ forall archive,
       exists h'',
         AddArchive clone archive h' = Return h''
         /\ read h'' clone = knoxite.AddArchive (read h' clone) archive
         /\ read h'' original = knoxite.AddArchive (read h original) archive.
Proof.
  intros Hclone Hl Halloc. destruct (make_fresh h) as [Hfresh Hh'].
  unfold Clone, NewSnapshot in Hclone. destruct (make h) as [l0 h0].
  cbn [isErr fst snd] in *. subst h0.
  destruct (Nat.ltb (String.length u) 8); [discriminate|]. cbn [isErr] in Hclone.
  injection Hclone as <- <-.
  assert (Hsame : read (<[l0:=∅]> h) original = read h original).
  { apply read_insert_fresh; [exact Hfresh|]. intros l' Hl'. congruence. }
  split; [exact Hsame|]. split.
  - unfold read. cbn. rewrite Hl.
    destruct Halloc as [t Ht]. rewrite lookup_insert_ne, Ht by congruence. reflexivity.
  - intros archive. unfold AddArchive. cbn [Object.withArchives Object.withStats
      Object.withID Object.Archives]. rewrite Hl. eexists. split; [reflexivity|].
    rewrite <- Hsame. unfold read, knoxite.AddArchive. cbn. rewrite Hl.
    rewrite !lookup_insert_eq. split; reflexivity.
Qed.

(** X29.  A clone of a snapshot whose table of archives is nil, as it is in
    [Snapshot{}], has a nil table too, although [NewSnapshot] had made one
    for it: adding an archive to the clone panics. *)
Theorem Clone_nil_archives (now : Z) (u : string) (original clone : Object.t)
    (h h' : Heap) (archive : Archive.t) :
  Clone now (u, None) original h = Return ((clone, None), h') ->
  Object.Archives original = None ->
  Object.Archives clone = None
  /\ AddArchive clone archive h' = Panic "assignment to entry in nil map".
Proof.
  intros Hclone Hnil. unfold Clone, NewSnapshot in Hclone.
  destruct (make h) as [l0 h0]. cbn [isErr] in Hclone.
  destruct (Nat.ltb (String.length u) 8); [discriminate|]. cbn [isErr] in Hclone.
  injection Hclone as <- <-. unfold AddArchive.
  cbn [Object.withArchives Object.Archives]. rewrite Hnil. split; reflexivity.
Qed.

End snapshots_shared.

(** ** The further properties on the examples *)

Section examples_more.

Import examples.

Lemma fileName_inj_witness :
  amazons3.fileName "ab12" 0 1 = "ab12.0_1"
  /\ amazons3.fileName "ab12" 0 1 <> amazons3.fileName "ab12.0" 1 1.
Proof.
  split; [reflexivity|]. intros H.
  apply (proj1 (fileName_inj "ab12" "ab12.0" 0 1 1 1)) in H. discriminate H.
Defined.

Lemma StoreChunk_then_LoadChunk_witness :
  amazons3.StoreChunk s3 "cd34" 0 1 [Byte.x62] initialised
  = ((1%N, None), snd (amazons3.StoreChunk s3 "cd34" 0 1 [Byte.x62] initialised))
  /\ amazons3.LoadChunk s3 "cd34" 0 1
       (snd (amazons3.StoreChunk s3 "cd34" 0 1 [Byte.x62] initialised))
     = ([Byte.x62], None).
Proof.
  assert (H : amazons3.StoreChunk s3 "cd34" 0 1 [Byte.x62] initialised
              = ((1%N, None),
                 snd (amazons3.StoreChunk s3 "cd34" 0 1 [Byte.x62] initialised)))
    by (vm_compute; reflexivity).
  split; [exact H|].
  rewrite (StoreChunk_then_LoadChunk s3 _ _ _ _ _ _ _ H). vm_compute. reflexivity.
Defined.

Lemma StoreChunk_again_witness :
  amazons3.StoreChunk s3 "cd34" 0 1 [Byte.x63]
    (snd (amazons3.StoreChunk s3 "cd34" 0 1 [Byte.x62] initialised))
  = ((0%N, None), snd (amazons3.StoreChunk s3 "cd34" 0 1 [Byte.x62] initialised)).
Proof.
  apply (StoreChunk_again s3 "cd34" 0 1 [Byte.x62] [Byte.x63] initialised _ 1).
  vm_compute. reflexivity.
Defined.

Lemma StoreChunk_frame_witness :
  amazons3.LoadChunk s3 "ab12" 0 1
    (snd (amazons3.StoreChunk s3 "cd34" 0 1 [Byte.x62] oneShard))
  = amazons3.LoadChunk s3 "ab12" 0 1 oneShard.
Proof.
  apply (StoreChunk_frame s3 "cd34" 0 1 [Byte.x62] oneShard); discriminate.
Defined.

Lemma SaveSnapshot_LoadSnapshot_witness :
  amazons3.LoadSnapshot s3 "0a1b2c3d"
    (snd (amazons3.SaveSnapshot s3 "0a1b2c3d" [Byte.x7b; Byte.x7d] initialised))
  = ([Byte.x7b; Byte.x7d], None).
Proof.
  apply (SaveSnapshot_LoadSnapshot s3 "0a1b2c3d" [Byte.x7b; Byte.x7d] initialised
           (snd (amazons3.SaveSnapshot s3 "0a1b2c3d" [Byte.x7b; Byte.x7d] initialised))
           None); vm_compute; reflexivity.
Defined.

Lemma ChunkIndex_roundtrip_witness :
  amazons3.LoadChunkIndex "index" s3
    (snd (amazons3.SaveChunkIndex "index" s3 [Byte.x7b; Byte.x7d] oneShard))
  = ([Byte.x7b; Byte.x7d], None)
  /\ amazons3.LoadChunk s3 "ab12" 0 1
       (snd (amazons3.SaveChunkIndex "index" s3 [Byte.x7b; Byte.x7d] oneShard))
     = amazons3.LoadChunk s3 "ab12" 0 1 oneShard.
Proof.
  assert (H : amazons3.SaveChunkIndex "index" s3 [Byte.x7b; Byte.x7d] oneShard
              = (None, snd (amazons3.SaveChunkIndex "index" s3 [Byte.x7b; Byte.x7d]
                              oneShard)))
    by (vm_compute; reflexivity).
  destruct (ChunkIndex_roundtrip s3 "index" _ _ _ H) as [Hload Hclash].
  split; [exact Hload|]. apply Hclash. reflexivity.
Defined.

Lemma Repository_roundtrip_witness :
  amazons3.LoadRepository "repository.knoxite" s3
    (snd (amazons3.SaveRepository "repository.knoxite" s3 [Byte.x7b; Byte.x7d]
            initialised))
  = ([Byte.x7b; Byte.x7d], None).
Proof.
  apply (Repository_roundtrip s3 "repository.knoxite" [Byte.x7b; Byte.x7d] initialised).
  vm_compute. reflexivity.
Defined.

Lemma InitRepository_again_witness :
  amazons3.InitRepository s3 ∅ = (None, initialised)
  /\ amazons3.InitRepository s3 initialised = (Some ErrRepositoryExists, initialised).
Proof.
  assert (H : amazons3.InitRepository s3 ∅ = (None, initialised)) by reflexivity.
  split; [exact H|]. exact (InitRepository_again s3 ∅ initialised H).
Defined.

Lemma InitRepository_partial_witness :
  snapshotsOnly !! "repo-chunks" = None
  /\ amazons3.InitRepository s3 snapshotsOnly
     = (Some ErrRepositoryExists, <["repo-chunks" := ∅]> snapshotsOnly).
Proof.
  assert (H : snapshotsOnly !! amazons3.chunkBucket s3 = None)
    by (vm_compute; reflexivity).
  split; [exact H|].
  apply (proj1 (InitRepository_partial s3 snapshotsOnly H)).
  exists ∅. vm_compute. reflexivity.
Defined.

Lemma NewBackend_InitRepository_ready_witness :
  exists svc',
    amazons3.InitRepository s3 ∅ = (None, svc')
    /\ (forall shasum part totalParts,
          amazons3.LoadChunk s3 shasum part totalParts svc'
          = ([], Some minio.NoSuchKey))
    /\ (forall id data, fst (amazons3.SaveSnapshot s3 id data svc') = None)
    /\ (forall shasum part totalParts data,
          snd (fst (amazons3.StoreChunk s3 shasum part totalParts data svc')) = None).
Proof.
  apply (NewBackend_InitRepository_ready dial (repoURL "s3") s3 ∅); reflexivity.
Defined.

Lemma NewBackend_validation_witness :
  amazons3.NewBackend dial
    {| url.Scheme := "s3"; url.User := None; url.Host := "h"; url.Path := "/r/p" |}
  = Return (amazons3.zero, Some ErrInvalidUsername)
  /\ amazons3.NewBackend dial
       {| url.Scheme := "s3s";
          url.User := Some (url.Build_Userinfo "key" "secret" true);
          url.Host := "h"; url.Path := "/r/p/" |}
     = Return (amazons3.zero, Some ErrInvalidRepositoryURL).
Proof.
  split.
  - apply (proj1 (NewBackend_validation dial
             {| url.Scheme := "s3"; url.User := None; url.Host := "h";
                url.Path := "/r/p" |} (or_introl eq_refl))).
    reflexivity.
  - apply (proj1 (proj2 (proj2 (NewBackend_validation dial
             {| url.Scheme := "s3s";
                url.User := Some (url.Build_Userinfo "key" "secret" true);
                url.Host := "h"; url.Path := "/r/p/" |} (or_intror eq_refl))))).
    + discriminate.
    + reflexivity.
    + vm_compute. discriminate.
Defined.

Lemma NewBackend_success_witness :
  exists first prefix,
    url.Path (repoURL "s3") = first +:+ "/" +:+ amazons3.region s3 +:+ "/" +:+ prefix
    /\ strings.Contains first "/" = false
    /\ strings.Contains (amazons3.region s3) "/" = false
    /\ strings.Contains prefix "/" = false
    /\ amazons3.url s3 = repoURL "s3"
    /\ amazons3.chunkBucket s3 = prefix +:+ "-chunks"
    /\ amazons3.snapshotBucket s3 = prefix +:+ "-snapshots"
    /\ amazons3.repositoryBucket s3 = prefix +:+ "-repository"
    /\ url.Username (url.User (repoURL "s3")) <> ""
    /\ snd (url.Password (url.User (repoURL "s3"))) = true.
Proof.
  apply (NewBackend_success dial (repoURL "s3") s3). reflexivity.
Defined.

Lemma Protocols_NewBackend_witness :
  In (url.Scheme (repoURL "s3s")) (amazons3.Protocols s3)
  /\ exists r, amazons3.NewBackend dial (repoURL "s3s") = Return r.
Proof.
  assert (H : In (url.Scheme (repoURL "s3s")) (amazons3.Protocols s3))
    by (right; left; reflexivity).
  split; [exact H|]. apply (proj2 (Protocols_NewBackend dial (repoURL "s3s") s3) H).
Defined.

End examples_more.

Section examples_pipeline.

Import examples.


Lemma manager_failed_save (id : string) (b : bytes) (st0 : minio.Service)
    (e0 : error) (st1 : minio.Service) :
  @SaveSnapshot _ manager id b st0 = (Some e0, st1) -> st1 = st0.
Proof.
  cbn. unfold amazons3.SaveSnapshot.
  destruct (minio.PutObject (amazons3.snapshotBucket s3) id b st0) as [[n e] svc0] eqn:Hput.
  intros [= -> <-]. exact (PutObject_failed _ _ _ _ _ _ _ Hput).
Qed.

Lemma Save_failure_witness :
  @Save transforms _ manager (bare "1a2b3c4d") repository ∅
  = (Some minio.NoSuchBucket, ∅)
  /\ @Save transforms _ manager dated repository initialised
     = (Some (ErrOther "json: unsupported value"), initialised).
Proof.
  assert (H1 : @Save transforms _ manager (bare "1a2b3c4d") repository ∅
               = (Some minio.NoSuchBucket,
                  snd (@Save transforms _ manager (bare "1a2b3c4d") repository ∅)))
    by (vm_compute; reflexivity).
  assert (H2 : @Save transforms _ manager dated repository initialised
               = (Some (ErrOther "json: unsupported value"),
                  snd (@Save transforms _ manager dated repository initialised)))
    by (vm_compute; reflexivity).
  pose proof (proj2 (@Save_failure transforms _ manager _ _ _ _ _ H1)
                manager_failed_save) as Hkept1.
  pose proof (proj2 (@Save_failure transforms _ manager _ _ _ _ _ H2)
                manager_failed_save) as Hkept2.
  split; [rewrite <- Hkept1 at 2; exact H1|rewrite <- Hkept2 at 2; exact H2].
Defined.



Lemma consume_stops_at_error_witness :
  @consume _ manager pipeline "/home/a" repository 0 0 0
    ([entry "/home/a/x" Directory 0] ++ unreadable :: [entry "/home/a/x/y" File 1])
    1 (bare "1a2b3c4d") [] initialised
  = @consume _ manager pipeline "/home/a" repository 0 0 0
      ([entry "/home/a/x" Directory 0] ++ [unreadable])
      1 (bare "1a2b3c4d") [] initialised.
Proof.
  apply (@consume_stops_at_error _ manager pipeline "/home/a" repository 0 0 0
           [entry "/home/a/x" Directory 0] [entry "/home/a/x/y" File 1] unreadable).
  reflexivity.
Defined.



Lemma storeChunks_aborted_witness :
  exists before last,
    sent (@storeChunks _ manager
            [ChunkResult.mk (chunkOf "ab12" [Byte.x61]) None;
             ChunkResult.mk Chunk.zero (Some (ErrOther "read: input/output error"))]
            None (directory "y") (newProgress (directory "y")) (bare "1a2b3c4d")
            initialised)
    = (before ++ [newProgressError last])%list.
Proof.
  destruct (@storeChunks_aborted _ manager
              [ChunkResult.mk (chunkOf "ab12" [Byte.x61]) None;
               ChunkResult.mk Chunk.zero (Some (ErrOther "read: input/output error"))]
              None (directory "y") (newProgress (directory "y")) (bare "1a2b3c4d")
              initialised)
    as (before & last & Hsent & _); [vm_compute; reflexivity|].
  exists before, last. exact Hsent.
Defined.

Lemma Add_keeps_identity_witness :
  Snapshot.ID (snapshot (@Add _ manager pipeline "/home/a" repository 0 0 0
                           ["/home/a"] [] [] 1 (bare "1a2b3c4d") initialised))
  = "1a2b3c4d".
Proof.
  apply (@Add_keeps_identity _ manager pipeline "/home/a" repository 0 0 0
           ["/home/a"] [] [] 1 (bare "1a2b3c4d") initialised).
Defined.

(** With the file delivered before its directory. *)
Lemma gatherTargetInformation_forwards_witness :
  (Stats.Size (Snapshot.Stats (bare "1a2b3c4d")) < uint64_modulus)%N
  /\ Stats.Size (Snapshot.Stats
       (snd (@gatherTargetInformation pipeline "/home/a" ["/home/a"; "/dev/null"] []
               (bare "1a2b3c4d"))))
     = ((0 + forwardedSize [entry "x/y" File 1; entry "x" Directory 0])
          mod uint64_modulus)%N.
Proof.
  assert (H : (Stats.Size (Snapshot.Stats (bare "1a2b3c4d")) < uint64_modulus)%N)
    by (vm_compute; reflexivity).
  assert (Hdel : @delivers pipeline "/home/a" ["/home/a"; "/dev/null"] []
                   (bare "1a2b3c4d") [entry "x/y" File 1; entry "x" Directory 0])
    by apply perm_swap.
  split; [exact H|].
  apply (proj1 (proj2 (proj2
           (@gatherTargetInformation_forwards pipeline "/home/a"
              ["/home/a"; "/dev/null"] [] (bare "1a2b3c4d")
              [entry "x/y" File 1; entry "x" Directory 0] Hdel)))).
  exact H.
Defined.

Lemma storedPath_mixed_witness :
  normalizePath "/home/a" "x/y" = "x/y" /\ storedPath "/home/a" "x/y" = "x/y".
Proof. apply (storedPath_mixed "/home/a" "x/y"). discriminate. Defined.

Lemma storedPath_parent_witness :
  filepath.Rel "/home/a" "/home" = ("..", None) /\ storedPath "/home/a" "/home" = "..".
Proof.
  apply (storedPath_parent "/home/a" "/home" ["home"] "a");
    [vm_compute; reflexivity..|repeat constructor|reflexivity].
Defined.

Lemma storedPath_self_witness : storedPath "/home/a" "/home/a/" = ".".
Proof. apply (storedPath_self "/home/a" "/home/a/"); vm_compute; reflexivity. Defined.

Lemma NewSnapshot_fresh_witness :
  exists s l h',
    shared.NewSnapshot 1478000000 (uuidString, None) "nightly" heap
    = Return ((s, None), h')
    /\ String.length (shared.Object.ID s) = 8
    /\ String.prefix (shared.Object.ID s) uuidString = true
    /\ shared.read h' s
       = Snapshot.mk (shared.Object.ID s) 1478000000 "nightly" Stats.zero ∅
    /\ shared.Object.Archives s = Some l /\ heap !! l = None
    /\ forall s0 : shared.Object.t,
         (forall l', shared.Object.Archives s0 = Some l' -> is_Some (heap !! l')) ->
         shared.read h' s0 = shared.read heap s0.
Proof.
  apply (NewSnapshot_fresh 1478000000 uuidString "nightly" heap).
  cbn. lia.
Defined.

Lemma Clone_shares_archives_witness :
  exists clone h' h'',
    shared.Clone 1478000000 (uuidString, None) original heap = Return ((clone, None), h')
    /\ shared.AddArchive clone (directory "x") h' = Return h''
    /\ shared.read h'' original
       = knoxite.AddArchive (shared.read heap original) (directory "x").
Proof.
  destruct (shared.Clone 1478000000 (uuidString, None) original heap)
    as [msg|[[clone err] h']] eqn:Hclone; [vm_compute in Hclone; discriminate Hclone|].
  assert (Herr : err = None).
  { vm_compute in Hclone. injection Hclone as _ <- _. reflexivity. }
  subst err.
  destruct (Clone_shares_archives 1478000000 uuidString original clone heap h'
              1%positive Hclone eq_refl) as (_ & _ & Hadd).
  { exists ∅. vm_compute. reflexivity. }
  destruct (Hadd (directory "x")) as (h'' & Hadded & _ & Horiginal).
  exists clone, h', h''. auto.
Defined.

Lemma Clone_nil_archives_witness :
  exists clone h',
    shared.Clone 1478000000 (uuidString, None) blank heap = Return ((clone, None), h')
    /\ shared.AddArchive clone (directory "x") h'
       = Panic "assignment to entry in nil map".
Proof.
  destruct (shared.Clone 1478000000 (uuidString, None) blank heap)
    as [msg|[[clone err] h']] eqn:Hclone; [vm_compute in Hclone; discriminate Hclone|].
  assert (Herr : err = None).
  { vm_compute in Hclone. injection Hclone as _ <- _. reflexivity. }
  subst err. exists clone, h'. split; [reflexivity|].
  apply (Clone_nil_archives 1478000000 uuidString blank clone heap h' (directory "x")
           Hclone eq_refl).
Defined.

End examples_pipeline.
